(** * Auth controller: a shallow embedding of [app/routes/authController.js]

    The controller is a set of Express handlers.  Each handler is embedded
    as a computation in a small state-and-exception monad over a [world]
    (the user collection, the session, the response state of the request
    and a trace of the observable events), parameterised by the validator
    library and by the outcomes of the I/O the handler performs. *)

From Stdlib Require Import ZArith String Ascii List Lia Bool DecimalString.
From stdpp Require Import base decidable option list strings.

Local Open Scope string_scope.
Local Open Scope Z_scope.
Local Open Scope nat_scope.
Local Open Scope list_scope.

(** ** JavaScript values *)

Module Js.

(** An [Error] object: its [name] and its [message]. *)
Record error := mkError { name : string; message : string }.

(** The values that reach the controller through a JSON body, a promise
    or a document field. *)
Inductive value :=
| VUndefined
| VNull
| VBool (b : bool)
| VNum (n : Z)
| VStr (s : string)
| VErr (e : error).

#[global] Instance error_eq_dec : EqDecision error.
Proof. solve_decision. Defined.

#[global] Instance value_eq_dec : EqDecision value.
Proof. solve_decision. Defined.

(** [if (v)]: the truthiness test. *)
Definition truthy (v : value) : bool :=
  match v with
  | VUndefined | VNull => false
  | VBool b => b
  | VNum n => negb (n =? 0)%Z
  | VStr s => negb (String.eqb s "")
  | VErr _ => true
  end.

(** [Error.prototype.toString]. *)
Definition error_toString (e : error) : string :=
  if String.eqb (message e) "" then name e
  else if String.eqb (name e) "" then message e
  else name e ++ ": " ++ message e.

(** [`${v}`]: interpolation in a template literal. *)
Definition toString (v : value) : string :=
  match v with
  | VUndefined => "undefined"
  | VNull => "null"
  | VBool true => "true"
  | VBool false => "false"
  | VNum n => DecimalString.NilZero.string_of_int (Z.to_int n)
  | VStr s => s
  | VErr e => error_toString e
  end.

Definition nl : string := String (ascii_of_nat 10) EmptyString.

Definition hex_digit (n : N) : ascii :=
  nth (N.to_nat n) (list_ascii_of_string "0123456789abcdef") "0"%char.

Definition hex_byte (b : Byte.byte) : string :=
  let n := Byte.to_N b in
  String (hex_digit (n / 16)) (String (hex_digit (n mod 16)) EmptyString).

(** A continuation byte of a UTF-8 sequence: [10xxxxxx]. *)
Definition continuation (c : ascii) : bool :=
  let n := N_of_ascii c in (128 <=? n)%N && (n <? 192)%N.

(** The length the validation middleware measures: [str.length] less one
    for every surrogate pair, that is the number of characters.  A string
    is its UTF-8 text, so this is the number of bytes that do not continue
    a sequence. *)
Fixpoint char_length (s : string) : nat :=
  match s with
  | EmptyString => 0
  | String c rest =>
      if continuation c then char_length rest else S (char_length rest)
  end.

(** [buf.toString('hex')]. *)
Definition toString_hex (buf : list Byte.byte) : string :=
  String.concat "" (map hex_byte buf).

End Js.

Import Js.

(** ** The models

    The controller requires [models/userModel], [models/creditModel] and
    [models/reportModel]; the schemas themselves are declared outside the
    controller file.  The records below carry the fields the controller
    passes, reads and writes.  An optional field is [None] when the
    document does not have it (assigning [undefined] unsets it). *)

(** A request field that the controller accepts as an array but does not
    validate: missing, some other value, or an array. *)
Inductive field (A : Type) :=
| Absent
| Other (v : value)
| Arr (l : list A).
Arguments Absent {A}.
Arguments Other {A} v.
Arguments Arr {A} l.

Module Report.
(** Modelled from the spec: the Report schema ([models/reportModel]), with
    a report type, a registration string and a boolean status flag, and
    the identifier every document gets when it is built. *)
Record t := mk {
  _id : nat;
  reportType : value;
  registration : string;
  stolen : bool
}.
End Report.

Module Credit.
(** Modelled from the spec: the Credit schema ([models/creditModel]), with
    a type tag, an expiry timestamp, an optional flag for an associated
    Report and an optional reference to that Report's identifier. *)
Record t := mk {
  _id : nat;
  creditType : value;
  expiresAt : Z;
  hasReport : option bool;
  reportId : option nat
}.
End Credit.

Module User.
(** Modelled from the spec: the User schema ([models/userModel]), with
    name, phone, card number, email, password (hashed by the store layer
    when saved; the record keeps what the controller assigned), the
    optional reset token and reset expiry, and the credits and reports
    handed over at signup. *)
Record t := mk {
  name : string;
  phone : string;
  creditCard : string;
  email : string;
  password : option string;
  passwordResetToken : option value;
  passwordResetExpires : option Z;
  credits : field Credit.t;
  reports : option (list Report.t)
}.

Definition set_password (p : option string) (u : t) : t :=
  mk (name u) (phone u) (creditCard u) (email u) p
     (passwordResetToken u) (passwordResetExpires u) (credits u) (reports u).

Definition set_passwordResetToken (v : option value) (u : t) : t :=
  mk (name u) (phone u) (creditCard u) (email u) (password u)
     v (passwordResetExpires u) (credits u) (reports u).

Definition set_passwordResetExpires (e : option Z) (u : t) : t :=
  mk (name u) (phone u) (creditCard u) (email u) (password u)
     (passwordResetToken u) e (credits u) (reports u).
End User.

(** A document in memory: the fields, and the slot of the collection it
    was read from ([None] for a document built with [new] and not saved
    yet).  The slot plays the role of the document's primary key. *)
Record document := mkDoc { slot : option nat; fields : User.t }.

Definition update (f : User.t -> User.t) (d : document) : document :=
  mkDoc (slot d) (f (fields d)).

(** ** The request, the collaborators and the observable events *)

(** One entry of [req.body.credits]. *)
Module Entry.
Record t := mk { creditType : value; generateReport : value }.
End Entry.

(** An element of the array [req.body.credits]: [null], or a value whose
    properties can be read (an object; a number, string or boolean reads as
    an entry with both properties [undefined]). *)
Inductive element :=
| Null
| Obj (entry : Entry.t).

Record request := mkRequest {
  body_name : string;
  body_phone : string;
  body_creditCard : string;
  body_email : string;
  body_password : string;
  body_confirmPassword : string;
  body_credits : field element;
  params_token : string;
  headers_host : string;
  user : string                       (* [req.user], set by the session middleware *)
}.

(** The validators and the sanitizer of the validation middleware
    ([normalizeEmail] is the sanitizer with [gmail_remove_dots: false]). *)
Record validator := mkValidator {
  isMobilePhone : string -> bool;
  isCreditCard : string -> bool;
  isEmail : string -> bool;
  normalizeEmail : string -> string
}.

(** What the world outside the controller answers during one request:
    the clock, the random source, and whether a store, session or mail
    operation fails.  The mail transport answers per configuration:
    [sendMail_error false] for the default transport, [sendMail_error true]
    for the one with [rejectUnauthorized: false]. *)
Record env := mkEnv {
  now : Z;
  randomBytes : error + list Byte.byte;
  findOne_error : option error;
  save_error : option error;
  logIn_error : option error;
  sendMail_error : bool -> option error
}.

Module Mail.
Record options := mk {
  to : option string;
  from : string;
  subject : string;
  text : string
}.
End Mail.

Inductive event :=
| Respond (status : nat) (msg : string)     (* [res.status(status).json({ msg })] *)
| Next (e : error)                          (* [next(e)] *)
| Debug (line : string) (e : option error)  (* [debug(line)], [debug(line, e)] *)
| Saved (i : nat) (u : User.t)              (* a save that reached the store *)
| SendMail (relaxed : bool) (m : Mail.options)
| LogIn (u : User.t).

Record world := mkWorld {
  users : list User.t;           (* the User collection, in natural order *)
  session : option User.t;       (* the identity [req.logIn] established *)
  next_id : nat;                 (* the next fresh [_id] *)
  headersSent : bool;            (* a response has been sent *)
  trace : list event
}.

Definition log (ev : event) (w : world) : world :=
  mkWorld (users w) (session w) (next_id w) (headersSent w) (trace w ++ [ev]).

(** ** The monad: state, and a thrown exception or a rejected promise *)

Inductive outcome (A : Type) :=
| Val (a : A)
| Exn (e : error).
Arguments Val {A} a.
Arguments Exn {A} e.

Definition M (A : Type) : Type := world -> outcome A * world.

#[global] Instance M_ret : MRet M := fun A a w => (Val a, w).

#[global] Instance M_bind : MBind M := fun A B k m w =>
  match m w with
  | (Val a, w') => k a w'
  | (Exn e, w') => (Exn e, w')
  end.

Definition throw {A} (e : error) : M A := fun w => (Exn e, w).

(** [p.catch(h)], [try { p } catch (e) { h(e) }]. *)
Definition catch {A} (m : M A) (h : error -> M A) : M A := fun w =>
  match m w with
  | (Val a, w') => (Val a, w')
  | (Exn e, w') => h e w'
  end.

(** The pair [(err, result)] a node-style callback receives. *)
Definition callback {A} (m : M A) : M (error + A) := fun w =>
  match m w with
  | (Val a, w') => (Val (inr a), w')
  | (Exn e, w') => (Val (inl e), w')
  end.

Definition emit (ev : event) : M unit := fun w => (Val tt, log ev w).

(** What flows down a promise chain into the mail step: a user document,
    the response object ([res.json] returns the response), a caught error
    returned as a value, or [undefined]. *)
Inductive chained :=
| Doc (d : document)
| Res
| ErrVal (e : error)
| Undefined.

Definition chained_truthy (c : chained) : bool :=
  match c with
  | Undefined => false
  | _ => true
  end.

(** [c.email] and [c.passwordResetToken], read from whatever [c] is. *)
Definition chained_email (c : chained) : option string :=
  match c with
  | Doc d => Some (User.email (fields d))
  | _ => None
  end.

Definition chained_passwordResetToken (c : chained) : value :=
  match c with
  | Doc d => default VUndefined (User.passwordResetToken (fields d))
  | _ => VUndefined
  end.

Definition ERR_HTTP_HEADERS_SENT : error :=
  mkError "Error" "Cannot set headers after they are sent to the client".

Definition null_TypeError (prop : string) : error :=
  mkError "TypeError" ("Cannot set property '" ++ prop ++ "' of null").

(** Reading a property of [null]. *)
Definition null_read_TypeError (prop : string) : error :=
  mkError "TypeError" ("Cannot read property '" ++ prop ++ "' of null").

(** [res.status(status).json({ msg })]: sends the response and returns
    [res] (Express ends [json] with [return this.send(body)], and [send]
    returns the response); throws when a response has already been sent. *)
Definition respond (status : nat) (msg : string) : M chained := fun w =>
  if headersSent w then (Exn ERR_HTTP_HEADERS_SENT, w)
  else (Val Res,
        mkWorld (users w) (session w) (next_id w) true
                (trace w ++ [Respond status msg])).

Definition next (e : error) : M unit := emit (Next e).

Definition debug (line : string) (e : option error) : M unit :=
  emit (Debug line e).

(** [req.assert(field, msg).check()]: one entry of [req.validationErrors()]. *)
Definition assert (ok : bool) (msg : string) : list string :=
  if ok then [] else [msg].

(** ** Store queries *)

(** [{ email: e }]. *)
Definition by_email (e : string) (u : User.t) : bool :=
  bool_decide (User.email u = e).

(** [.where(field).gt(bound)]: the field is present and greater. *)
Definition gt (f : option Z) (bound : Z) : bool :=
  match f with
  | Some e => bool_decide (bound < e)%Z
  | None => false
  end.

(** [{ passwordResetToken: t }] with [.where('passwordResetExpires').gt(bound)]. *)
Definition by_reset_token (t : string) (bound : Z) (u : User.t) : bool :=
  bool_decide (User.passwordResetToken u = Some (VStr t))
  && gt (User.passwordResetExpires u) bound.

(** The first document of the collection that satisfies the query. *)
Definition first_match (q : User.t -> bool) (l : list User.t) : option document :=
  match list_find (fun u => Is_true (q u)) l with
  | Some (i, u) => Some (mkDoc (Some i) u)
  | None => None
  end.

(** What [save] writes: an update in place for a document read from the
    collection, an insertion at the end for a new one. *)
Definition write (d : document) (l : list User.t) : nat * list User.t :=
  match slot d with
  | Some i => (i, <[i := fields d]> l)
  | None => (length l, l ++ [fields d])
  end.

(** ** Signup: the Credit and Report records of one request *)

(** One round of [credits.forEach]: [n] is the next fresh [_id]. *)
Definition forEach_credit (expiry : Z)
    (st : nat * list Credit.t * list Report.t) (credit : Entry.t)
    : nat * list Credit.t * list Report.t :=
  let '(n, tempCredits, tempReports) := st in
  if truthy (Entry.generateReport credit) then
    let newReport := Report.mk n (Entry.creditType credit) "ABC-1234" false in
    let hasReport := Some true in
    let reportId := Some (Report._id newReport) in
    let newCredit :=
      Credit.mk (S n) (Entry.creditType credit) expiry hasReport reportId in
    (S (S n), tempCredits ++ [newCredit], tempReports ++ [newReport])
  else
    let newCredit := Credit.mk n (Entry.creditType credit) expiry None None in
    (S n, tempCredits ++ [newCredit], tempReports).

Definition two_years : Z := (2 * 365 * 24 * 60 * 60 * 1000)%Z.
Definition one_hour : Z := (60 * 60 * 1000)%Z.

(** [credits] and [reports] as they are handed to [new User]. *)
Definition signup_records (t : Z) (n : nat) (credits : field Entry.t)
    : nat * field Credit.t * option (list Report.t) :=
  match credits with
  | Arr l =>
      let expiry := (t + two_years)%Z in
      let '(n', tempCredits, tempReports) :=
        fold_left (forEach_credit expiry) l (n, [], []) in
      (n', Arr tempCredits, Some tempReports)
  | Other v => (n, Other v, None)
  | Absent => (n, Absent, None)
  end.

(** The entries [credits.forEach] gets through: those before the first
    [null] element, and whether there is such an element (the callback
    throws on it when it reads [credit.generateReport]). *)
Fixpoint until_null (l : list element) : list Entry.t * bool :=
  match l with
  | [] => ([], false)
  | Null :: _ => ([], true)
  | Obj entry :: rest =>
      let '(entries, null) := until_null rest in (entry :: entries, null)
  end.

Definition readable (credits : field element) : field Entry.t * bool :=
  match credits with
  | Arr l => let '(entries, null) := until_null l in (Arr entries, null)
  | Other v => (Other v, false)
  | Absent => (Absent, false)
  end.

(** Whether [req.body.credits] is an array with a [null] element, and the
    entries the loop reads before it meets one. *)
Definition has_null (credits : field element) : bool := (readable credits).2.

Definition entries (credits : field element) : field Entry.t :=
  (readable credits).1.

Definition self_signed : string := "self signed certificate in certificate chain".

Definition downgrade_warning : string :=
  "WARNING: Self signed certificate in certificate chain. Retrying with the self signed certificate. Use a valid certificate if in production.".

Definition sender : string := "m4076788@nwytg.net".

Definition reset_request_text (host : string) (token : value) : string :=
  "You are receiving this email because you (or someone else) have requested the reset of the password for your account."
  ++ nl ++ nl ++ nl
  ++ "        Please click on the following link, or paste this into your browser to complete the process:"
  ++ nl ++ nl ++ nl
  ++ "        http://" ++ host ++ "/auth/password/reset/" ++ toString token
  ++ nl ++ nl ++ nl
  ++ "        If you did not request this, please ignore this email and your password will remain unchanged."
  ++ nl.

Definition reset_done_text (email : option string) : string :=
  "Hello," ++ nl ++ nl
  ++ "This is a confirmation that the password for your account "
  ++ default "undefined" email ++ " has just been changed." ++ nl.

(** ** The handlers *)

Section Handlers.

Context (V : validator) (E : env).

(** [User.findOne(query)]. *)
Definition findOne (q : User.t -> bool) : M (option document) := fun w =>
  match findOne_error E with
  | Some e => (Exn e, w)
  | None => (Val (first_match q (users w)), w)
  end.

(** [user.save()]: resolves with the document. *)
Definition save (d : document) : M document := fun w =>
  match save_error E with
  | Some e => (Exn e, w)
  | None =>
      let '(i, users') := write d (users w) in
      (Val (mkDoc (Some i) (fields d)),
       mkWorld users' (session w) (next_id w) (headersSent w)
               (trace w ++ [Saved i (fields d)]))
  end.

(** [req.logIn(user, cb)]. *)
Definition logIn (d : document) : M unit := fun w =>
  match logIn_error E with
  | Some e => (Exn e, w)
  | None =>
      (Val tt,
       mkWorld (users w) (Some (fields d)) (next_id w) (headersSent w)
               (trace w ++ [LogIn (fields d)]))
  end.

(** [transporter.sendMail(mailOptions)]. *)
Definition sendMail (relaxed : bool) (m : Mail.options) : M unit := fun w =>
  match sendMail_error E relaxed with
  | Some e => (Exn e, log (SendMail relaxed m) w)
  | None => (Val tt, log (SendMail relaxed m) w)
  end.

(** [new Report], [new Credit] for every entry of [req.body.credits];
    a [null] element ends the loop with a TypeError. *)
Definition new_records (credits : field element)
    : M (field Credit.t * option (list Report.t)) := fun w =>
  let '(entries, null) := readable credits in
  let '(n, cs, rs) := signup_records (now E) (next_id w) entries in
  let w' := mkWorld (users w) (session w) n (headersSent w) (trace w) in
  if null then (Exn (null_read_TypeError "generateReport"), w')
  else (Val (cs, rs), w').

(** POST /signup *)
Definition postSignup (req : request) : M unit :=
  let errors :=
    assert (isMobilePhone V (body_phone req)) "Phone is not valid"
    ++ assert (isCreditCard V (body_creditCard req)) "Credit Card Number is not valid"
    ++ assert (isEmail V (body_email req)) "Email is not valid" in
  let email := normalizeEmail V (body_email req) in
  match errors with
  | msg :: _ => respond 400 msg ;; mret tt
  | [] =>
      '(credits, reports) ← new_records (body_credits req);
      let user :=
        mkDoc None (User.mk (body_name req) (body_phone req)
                            (body_creditCard req) email None None None
                            credits reports) in
      r ← callback (findOne (by_email email));
      match r with
      | inl err => next err
      | inr (Some existingUser) =>
          respond 400 "Email already registered" ;; mret tt
      | inr None =>
          r ← callback (save user);
          match r with
          | inl err => next err
          | inr _ =>
              r ← callback (logIn user);
              match r with
              | inl err => next err
              | inr _ => respond 200 "Signup successful" ;; mret tt
              end
          end
      end
  end.

(** POST /password/update *)
Definition postUpdatePassword (req : request) : M unit :=
  let errors :=
    assert (8 <=? char_length (body_password req))
           "Password must be at least 8 characters long"
    ++ assert (String.eqb (body_confirmPassword req) (body_password req))
              "Passwords do not match" in
  match errors with
  | msg :: _ => respond 400 msg ;; mret tt
  | [] =>
      r ← callback (findOne (by_email (user req)));
      match r with
      | inl err => next err
      | inr None => throw (null_TypeError "password")
      | inr (Some user) =>
          let user := update (User.set_password (Some (body_password req))) user in
          r ← callback (save user);
          match r with
          | inl err => next err
          | inr _ => respond 200 "Password updated" ;; mret tt
          end
      end
  end.

(** POST /password/reset: [sendResetPasswordEmail]. *)
Definition postReset_sendResetPasswordEmail (req : request) (user : chained)
    : M chained :=
  if negb (chained_truthy user) then
    respond 500 "Error sending the password reset email"
  else
    let token := chained_passwordResetToken user in
    let mailOptions :=
      Mail.mk (chained_email user) sender "Reset password requested"
              (reset_request_text (headers_host req) token) in
    catch (sendMail false mailOptions ;; respond 200 "Email sent")
      (fun err =>
         if String.eqb (message err) self_signed then
           debug downgrade_warning None ;;
           sendMail true mailOptions ;;
           respond 200 "Email sent"
         else
           debug ("ERROR: Could not send forgot password email after security downgrade." ++ nl)
                 (Some err) ;;
           mret (ErrVal err)).

(** POST /password/reset: [setRandomToken].  Neither promise chain is
    returned: both end in [.catch(err => err)]. *)
Definition postReset_setRandomToken (req : request) (email : string)
    (token : value) : M unit :=
  catch
    (user ← findOne (by_email email);
     match user with
     | None => respond 401 ("Email " ++ email ++ " not found") ;; mret tt
     | Some user =>
         let user := update (User.set_passwordResetToken (Some token)) user in
         let user :=
           update (User.set_passwordResetExpires (Some (now E + one_hour)%Z)) user in
         catch (saved ← save user;
                postReset_sendResetPasswordEmail req (Doc saved) ;; mret tt)
               (fun err => mret tt)
     end)
    (fun err => mret tt).

(** POST /password/reset: [createRandomToken], which catches its own
    failure and resolves with the error. *)
Definition createRandomToken : value :=
  match randomBytes E with
  | inr buf => VStr (toString_hex buf)
  | inl err => VErr err
  end.

(** POST /password/reset *)
Definition postReset (req : request) : M unit :=
  let errors := assert (isEmail V (body_email req)) "Email is not valid" in
  let email := normalizeEmail V (body_email req) in
  match errors with
  | msg :: _ => respond 400 msg ;; mret tt
  | [] => catch (postReset_setRandomToken req email createRandomToken) next
  end.

(** GET /password/reset/:token *)
Definition getResetToken (req : request) : M unit :=
  r ← callback (findOne (by_reset_token (params_token req) (now E)));
  match r with
  | inl err => next err
  | inr None => respond 400 "Invalid or expired token" ;; mret tt
  | inr (Some _) => respond 200 "Valid token" ;; mret tt
  end.

(** POST /password/reset/:token: [resetPassword]. *)
Definition postResetToken_resetPassword (req : request) : M chained :=
  user ← findOne (by_reset_token (params_token req) (now E));
  match user with
  | None => respond 400 "Invalid or expired token"
  | Some user =>
      let user := update (User.set_password (Some (body_password req))) user in
      let user := update (User.set_passwordResetToken None) user in
      let user := update (User.set_passwordResetExpires None) user in
      save user ;;
      logIn user ;;
      mret (Doc user)
  end.

(** POST /password/reset/:token: [sendResetPasswordEmail]. *)
Definition postResetToken_sendResetPasswordEmail (user : chained) : M chained :=
  if negb (chained_truthy user) then
    debug "ERROR: Error sending password reset confirmation email" None ;;
    respond 500 "Password updated with errors"
  else
    let mailOptions :=
      Mail.mk (chained_email user) sender "Your password has been changed"
              (reset_done_text (chained_email user)) in
    catch (sendMail false mailOptions ;; respond 200 "Password updated")
      (fun err =>
         if String.eqb (message err) self_signed then
           debug downgrade_warning None ;;
           sendMail true mailOptions ;;
           respond 200 "Password updated"
         else
           debug ("ERROR: Could not send password reset confirmation email after security downgrade." ++ nl)
                 (Some err) ;;
           mret (ErrVal err)).

(** POST /password/reset/:token *)
Definition postResetToken (req : request) : M unit :=
  let errors :=
    assert (8 <=? char_length (body_password req))
           "Password must be at least 8 characters long."
    ++ assert (String.eqb (body_confirmPassword req) (body_password req))
              "Passwords must match." in
  match errors with
  | msg :: _ => respond 400 msg ;; mret tt
  | [] =>
      catch (user ← postResetToken_resetPassword req;
             postResetToken_sendResetPasswordEmail user ;; mret tt)
            (fun err => next err)
  end.

End Handlers.

(** The world a request starts in. *)
Definition start (l : list User.t) (s : option User.t) (n : nat) : world :=
  mkWorld l s n false [].

(** The responses of a trace, in order. *)
Definition responses (tr : list event) : list (nat * string) :=
  omap (fun ev => match ev with Respond st msg => Some (st, msg) | _ => None end) tr.

Definition is_Next (ev : event) : bool :=
  match ev with Next _ => true | _ => false end.

(** ** Sample data, to run the handlers on *)

Module Sample.

(** A stand-in for the validation library: it accepts every field and
    leaves the email as it is. *)
Definition checks : validator :=
  mkValidator (fun _ => true) (fun _ => true) (fun _ => true) (fun s => s).

(** Alice has an outstanding reset token that expires at time 1000. *)
Definition alice : User.t :=
  User.mk "Alice" "+14155552671" "4111111111111111" "alice@example.com"
          (Some "old-secret") (Some (VStr "abc123")) (Some 1000%Z) Absent None.

Definition bob : User.t :=
  User.mk "Bob" "+14155552672" "4111111111111111" "bob@example.com"
          (Some "hunter2-hunter2") None None Absent None.

Definition collection : list User.t := [bob; alice].

Definition credits : list Entry.t :=
  [Entry.mk (VStr "auto") (VBool true); Entry.mk (VStr "moto") (VBool false)].

(** A request by Alice; the handlers read the fields they need. *)
Definition req : request :=
  mkRequest "Alice" "+14155552671" "4111111111111111" "alice@example.com"
            "secret123" "secret123" (Arr (map Obj credits))
            "abc123" "localhost:3000" "alice@example.com".

(** The same request with a token and an identity nobody has. *)
Definition stranger : request :=
  mkRequest "Carol" "+14155552673" "4111111111111111" "carol@example.com"
            "secret123" "secret123" Absent
            "ffff" "localhost:3000" "carol@example.com".

Definition buf : list Byte.byte :=
  [Byte.x00; Byte.x01; Byte.x1a; Byte.xff; Byte.x10; Byte.x20; Byte.x30; Byte.x40;
   Byte.x50; Byte.x60; Byte.x70; Byte.x80; Byte.x90; Byte.xa0; Byte.xb0; Byte.xc0].

(** Every collaborator answers; the clock shows [t]. *)
Definition at_time (t : Z) : env :=
  mkEnv t (inr buf) None None None (fun _ => None).

Definition ECONNREFUSED : error := mkError "Error" "connect ECONNREFUSED".
Definition SELF_SIGNED : error := mkError "Error" self_signed.
Definition EAGAIN : error := mkError "Error" "getrandom EAGAIN".

(** The mail transport fails: [first] is the answer of the default
    transport, [retry] the answer of the relaxed one. *)
Definition mail_fails (first retry : option error) : env :=
  mkEnv 500 (inr buf) None None None (fun relaxed => if relaxed then retry else first).

(** The random source fails. *)
Definition no_entropy : env :=
  mkEnv 500 (inl EAGAIN) None None None (fun _ => None).

End Sample.

(** ** Trace predicates *)

(** What follows the first mail attempt of a trace. *)
Fixpoint after_first_send (tr : list event) : list event :=
  match tr with
  | [] => []
  | SendMail _ _ :: rest => rest
  | _ :: rest => after_first_send rest
  end.

(** Exactly one response, and it is the success response that directly
    follows the first mail attempt. *)
Definition answered_once_after_first_send (tr : list event) : Prop :=
  length (responses tr) = 1 /\
  exists rest, after_first_send tr = Respond 200 "Email sent" :: rest.

(** Every mail attempt of the trace comes after a save. *)
Fixpoint saved_before_send (saved : bool) (tr : list event) : bool :=
  match tr with
  | [] => true
  | SendMail _ _ :: rest => saved && saved_before_send saved rest
  | Saved _ _ :: rest => saved_before_send true rest
  | _ :: rest => saved_before_send saved rest
  end.

(** Token and expiry are both present or both absent. *)
Definition paired (u : User.t) : Prop :=
  is_Some (User.passwordResetToken u) <-> is_Some (User.passwordResetExpires u).

(** The record [resetPassword] saves for a matched record [u]. *)
Definition reset_fields (pw : string) (u : User.t) : User.t :=
  User.set_passwordResetExpires None
    (User.set_passwordResetToken None (User.set_password (Some pw) u)).

(** The record [setRandomToken] saves for a found record [u]. *)
Definition issue_fields (token : value) (t : Z) (u : User.t) : User.t :=
  User.set_passwordResetExpires (Some (t + one_hour)%Z)
    (User.set_passwordResetToken (Some token) u).

(** A credit built for [entry], with the reports [rs] of the same
    request: it carries the entry's type and the expiry, and it is linked
    to a report exactly when the entry asks for one. *)
Definition linked (expiry : Z) (rs : list Report.t) (entry : Entry.t)
    (credit : Credit.t) : Prop :=
  Credit.creditType credit = Entry.creditType entry /\
  Credit.expiresAt credit = expiry /\
  (truthy (Entry.generateReport entry) = true ->
   Credit.hasReport credit = Some true /\
   exists report, report ∈ rs /\
                  Credit.reportId credit = Some (Report._id report) /\
                  Report.reportType report = Entry.creditType entry) /\
  (truthy (Entry.generateReport entry) = false ->
   Credit.hasReport credit = None /\ Credit.reportId credit = None).

(** The events of the mail step of POST /password/reset after the first
    attempt, by the answers of the two transports. *)
Definition request_mail_outcome (E : env) (m : Mail.options) : list event :=
  match sendMail_error E false with
  | None => [Respond 200 "Email sent"]
  | Some err =>
      if String.eqb (message err) self_signed then
        Debug downgrade_warning None :: SendMail true m ::
        match sendMail_error E true with
        | None => [Respond 200 "Email sent"]
        | Some _ => []
        end
      else
        [Debug ("ERROR: Could not send forgot password email after security downgrade." ++ nl)
               (Some err)]
  end.

(** The mail of POST /password/reset for the saved record [u]. *)
Definition request_mail (req : request) (u : User.t) : Mail.options :=
  Mail.mk (Some (User.email u)) sender "Reset password requested"
          (reset_request_text (headers_host req)
             (default VUndefined (User.passwordResetToken u))).

(** ** The session handlers and account removal *)

(** [req.isAuthenticated()]: the request carries an identity. *)
Definition isAuthenticated (w : world) : bool :=
  match session w with
  | Some _ => true
  | None => false
  end.

(** [req.logout()], [req.user = null]: the request loses its identity. *)
Definition req_logout : M unit := fun w =>
  (Val tt, mkWorld (users w) None (next_id w) (headersSent w) (trace w)).

(** GET /signup *)
Definition getSignup : M unit := fun w =>
  (if isAuthenticated w then respond 200 "Signed in" ;; mret tt
   else respond 200 "Signed out" ;; mret tt) w.

(** GET /login *)
Definition getLogin : M unit := fun w =>
  (if isAuthenticated w then respond 200 "Signed in" ;; mret tt
   else respond 200 "Signed out" ;; mret tt) w.

(** GET /password/update *)
Definition getUpdatePassword : M unit :=
  respond 200 "Signed in" ;; mret tt.

(** GET /password/reset *)
Definition getReset : M unit := fun w =>
  (if isAuthenticated w then respond 200 "Signed in" ;; mret tt
   else respond 200 "Signed out" ;; mret tt) w.

(** The collection without the first document that satisfies the query. *)
Definition without_first (q : User.t -> bool) (l : list User.t) : list User.t :=
  match list_find (fun u => Is_true (q u)) l with
  | Some (i, _) => delete i l
  | None => l
  end.

(** The request after [req.sanitize('email').normalizeEmail(...)]. *)
Definition sanitize_email (V : validator) (req : request) : request :=
  mkRequest (body_name req) (body_phone req) (body_creditCard req)
            (normalizeEmail V (body_email req))
            (body_password req) (body_confirmPassword req) (body_credits req)
            (params_token req) (headers_host req) (user req).

Section Session.

Context (V : validator) (E : env).

(** [notEmpty] of the validation middleware. *)
Context (notEmpty : string -> bool).

(** The local strategy behind [passport.authenticate('local', cb)]: from
    the request and the collection to the [(err, user, info)] the callback
    receives; [info] is the message of the payload. *)
Context (local : request -> list User.t -> error + option document * string).

(** Whether [req.session.destroy] and [User.deleteOne] fail. *)
Context (destroy_error deleteOne_error : option error).

Definition authenticate (req : request) : M (option document * string) := fun w =>
  match local req (users w) with
  | inl err => (Exn err, w)
  | inr r => (Val r, w)
  end.

(** POST /login *)
Definition postLogin (req : request) : M unit :=
  let errors :=
    assert (isEmail V (body_email req)) "Email is not valid"
    ++ assert (notEmpty (body_password req)) "Password cannot be blank" in
  match errors with
  | msg :: _ => respond 400 msg ;; mret tt
  | [] =>
      r ← callback (authenticate (sanitize_email V req));
      match r with
      | inl err => next err
      | inr (None, info) => respond 401 info ;; mret tt
      | inr (Some user, _) =>
          r ← callback (logIn E user);
          match r with
          | inl err => next err
          | inr _ => respond 200 "Signed in" ;; mret tt
          end
      end
  end.

(** GET /logout *)
Definition logout : M unit :=
  req_logout ;;                       (* [req.logout()] *)
  req_logout ;;                       (* [req.user = null], in the callback *)
  match destroy_error with
  | Some err =>
      debug "Error : Failed to destroy session during logout" (Some err) ;;
      respond 500 "Signed out with errors" ;; mret tt
  | None => respond 200 "Signed out" ;; mret tt
  end.

(** [User.deleteOne(query)]. *)
Definition deleteOne (q : User.t -> bool) : M unit := fun w =>
  match deleteOne_error with
  | Some e => (Exn e, w)
  | None =>
      (Val tt,
       mkWorld (without_first q (users w)) (session w) (next_id w)
               (headersSent w) (trace w))
  end.

(** DELETE /delete *)
Definition deleteAccount (req : request) : M unit :=
  r ← callback (deleteOne (by_email (user req)));
  match r with
  | inl err => next err
  | inr _ => req_logout ;; respond 200 "Account removed" ;; mret tt
  end.

End Session.

(** One record of the collection may have been rewritten: [l'] is [l], or
    [l] with the first match of [q] replaced by its image under [f]. *)
Definition rewrites_first (q : User.t -> bool) (f : User.t -> User.t)
    (l l' : list User.t) : Prop :=
  l' = l \/
  exists i u, first_match q l = Some (mkDoc (Some i) u) /\ l' = <[i := f u]> l.

(** The responses and the calls to [next] of a trace: the answers a
    request got. *)
Fixpoint answers (tr : list event) : nat :=
  match tr with
  | [] => 0
  | Respond _ _ :: rest | Next _ :: rest => S (answers rest)
  | _ :: rest => answers rest
  end.

Definition is_hex (c : ascii) : bool :=
  existsb (Ascii.eqb c) (list_ascii_of_string "0123456789abcdef").

(** The emails of the collection, in order. *)
Definition emails (l : list User.t) : list string := User.email <$> l.

(** The record [new User] builds in POST /signup, with [n] the next
    fresh [_id]. *)
Definition signup_user (V : validator) (E : env) (n : nat) (req : request)
    : User.t :=
  let '(_, credits, reports) :=
    signup_records (now E) n (entries (body_credits req)) in
  User.mk (body_name req) (body_phone req) (body_creditCard req)
          (normalizeEmail V (body_email req)) None None None credits reports.

(** The world of a request that was answered with one response and
    nothing else. *)
Definition only_answered (l : list User.t) (s : option User.t) (n : nat)
    (status : nat) (msg : string) : world :=
  mkWorld l s n true [Respond status msg].

(** Two records of the same account: everything but the password and the
    reset fields agrees. *)
Definition same_account (u u' : User.t) : Prop :=
  User.name u' = User.name u /\ User.phone u' = User.phone u /\
  User.creditCard u' = User.creditCard u /\ User.email u' = User.email u /\
  User.credits u' = User.credits u /\ User.reports u' = User.reports u.

(** The mail of POST /password/reset/:token for the saved record [u]. *)
Definition completion_mail (u : User.t) : Mail.options :=
  Mail.mk (Some (User.email u)) sender "Your password has been changed"
          (reset_done_text (Some (User.email u))).

(** The events of the mail step of POST /password/reset/:token after the
    first attempt, by the answers of the two transports. *)
Definition completion_mail_outcome (E : env) (m : Mail.options) : list event :=
  match sendMail_error E false with
  | None => [Respond 200 "Password updated"]
  | Some err =>
      if String.eqb (message err) self_signed then
        Debug downgrade_warning None :: SendMail true m ::
        match sendMail_error E true with
        | None => [Respond 200 "Password updated"]
        | Some err2 => [Next err2]
        end
      else
        [Debug ("ERROR: Could not send password reset confirmation email after security downgrade." ++ nl)
               (Some err)]
  end.

(** Reading a hex string back, to tell encoded buffers apart. *)
Fixpoint hex_value (c : ascii) (digits : list ascii) (i : N) : option N :=
  match digits with
  | [] => None
  | d :: rest => if Ascii.eqb c d then Some i else hex_value c rest (i + 1)%N
  end.

Definition unhex_byte (c1 c2 : ascii) : option Byte.byte :=
  match hex_value c1 (list_ascii_of_string "0123456789abcdef") 0%N,
        hex_value c2 (list_ascii_of_string "0123456789abcdef") 0%N with
  | Some h, Some l => Byte.of_N (16 * h + l)
  | _, _ => None
  end.

Fixpoint fromString_hex (s : string) : option (list Byte.byte) :=
  match s with
  | EmptyString => Some []
  | String c1 (String c2 rest) =>
      match unhex_byte c1 c2, fromString_hex rest with
      | Some b, Some bs => Some (b :: bs)
      | _, _ => None
      end
  | String _ EmptyString => None
  end.

(** ** More sample data *)

Module Scenario.

(** A stand-in for the validation library that rejects some input: a
    phone number starts with [+], a card number has 16 characters, an email
    contains [@]; the email is left as it is. *)
Definition picky : validator :=
  mkValidator (String.prefix "+")
              (fun s => String.length s =? 16)
              (fun s => existsb (Ascii.eqb "@"%char) (list_ascii_of_string s))
              (fun s => s).

Definition notEmpty (s : string) : bool := negb (String.eqb s "").

(** A stand-in for the local strategy: the stored record with the email,
    when the password is the stored one. *)
Definition local (req : request) (l : list User.t)
    : error + option document * string :=
  match first_match (by_email (body_email req)) l with
  | Some d =>
      if bool_decide (User.password (fields d) = Some (body_password req))
      then inr (Some d, "")
      else inr (None, "Invalid email or password.")
  | None => inr (None, ("Email " ++ body_email req ++ " not found.")%string)
  end.

(** Carol signs up with two credits; Mallory's fields are all invalid. *)
Definition carol : request :=
  mkRequest "Carol" "+14155552673" "4111111111111111" "carol@example.com"
            "secret123" "secret123" (Arr (map Obj Sample.credits))
            "ffff" "localhost:3000" "carol@example.com".

Definition mallory : request :=
  mkRequest "Mallory" "555" "41" "mallory" "short" "other" Absent
            "ffff" "localhost:3000" "mallory".

(** Bob signs in with his password. *)
Definition bob_login : request :=
  mkRequest "" "" "" "bob@example.com" "hunter2-hunter2" "" Absent
            "" "localhost:3000" "bob@example.com".

(** Alice follows the link of her reset mail. *)
Definition alice_reset : request :=
  mkRequest "" "" "" "alice@example.com" "new-secret" "new-secret" Absent
            "00011aff102030405060708090a0b0c0" "localhost:3000"
            "alice@example.com".

(** A signup under Alice's email, valid field by field, whose credits
    array holds a [null]. *)
Definition null_credits : request :=
  mkRequest "Alice" "+14155552671" "4111111111111111" "alice@example.com"
            "secret123" "secret123" (Arr [Null])
            "ffff" "localhost:3000" "alice@example.com".

(** Bob asks for a reset link. *)
Definition bob_forgot : request :=
  mkRequest "" "" "" "bob@example.com" "" "" Absent
            "" "localhost:3000" "bob@example.com".

(** The collection after Alice and Bob have each asked for a reset link
    and the random source has answered both requests with the same
    bytes. *)
Definition same_bytes : list User.t :=
  users (snd (postReset Sample.checks (Sample.at_time 500) bob_forgot
    (start (users (snd (postReset Sample.checks (Sample.at_time 500)
                          Sample.req (start Sample.collection None 0))))
           None 0))).

(** A password of seven characters that takes thirteen bytes. *)
Definition cyrillic : request :=
  mkRequest "" "" "" "alice@example.com" "пароль1" "пароль1" Absent
            "abc123" "localhost:3000" "alice@example.com".

Definition ECONNRESET : error := mkError "MongoError" "connection reset".

Definition lookup_fails : env :=
  mkEnv 500 (inr Sample.buf) (Some ECONNRESET) None None (fun _ => None).

Definition save_fails : env :=
  mkEnv 500 (inr Sample.buf) None (Some ECONNRESET) None (fun _ => None).

Definition login_fails : env :=
  mkEnv 500 (inr Sample.buf) None None (Some ECONNRESET) (fun _ => None).

End Scenario.

(** * Properties *)

Ltac run_monad :=
  cbv [mbind mret M_bind M_ret catch callback throw emit next debug respond
       findOne save logIn sendMail new_records start log]; simpl.

(** ** The model on the sample data *)

Example createRandomToken_sample :
  createRandomToken (Sample.at_time 0) = VStr "00011aff102030405060708090a0b0c0".
Proof. reflexivity. Qed.

Example char_length_counts_characters :
  String.length "пароль1" = 13 /\ char_length "пароль1" = 7 /\
  char_length "secret123" = 9.
Proof. repeat split; reflexivity. Qed.

Example postUpdatePassword_short_in_characters :
  responses (trace (snd (postUpdatePassword (Sample.at_time 5) Scenario.cyrillic
                                            (start Sample.collection None 0))))
  = [(400, "Password must be at least 8 characters long")].
Proof. reflexivity. Qed.

Example postSignup_null_credit :
  postSignup Scenario.picky (Sample.at_time 5) Scenario.null_credits
             (start Sample.collection None 0)
  = (Exn (null_read_TypeError "generateReport"), start Sample.collection None 0).
Proof. reflexivity. Qed.

Example getResetToken_before_expiry :
  trace (snd (getResetToken (Sample.at_time 999) Sample.req
                            (start Sample.collection None 0)))
  = [Respond 200 "Valid token"].
Proof. reflexivity. Qed.

Example getResetToken_at_expiry :
  trace (snd (getResetToken (Sample.at_time 1000) Sample.req
                            (start Sample.collection None 0)))
  = [Respond 400 "Invalid or expired token"].
Proof. reflexivity. Qed.

Example postSignup_new_user :
  responses (trace (snd (postSignup Sample.checks (Sample.at_time 0) Sample.stranger
                                    (start Sample.collection None 0))))
  = [(200, "Signup successful")].
Proof. reflexivity. Qed.

Example signup_records_sample :
  signup_records 0 7 (Arr Sample.credits)
  = (10,
     Arr [Credit.mk 8 (VStr "auto") two_years (Some true) (Some 7);
          Credit.mk 9 (VStr "moto") two_years None None],
     Some [Report.mk 7 (VStr "auto") "ABC-1234" false]).
Proof. reflexivity. Qed.

Example postResetToken_sample :
  responses (trace (snd (postResetToken (Sample.at_time 999) Sample.req
                                        (start Sample.collection None 0))))
  = [(200, "Password updated")].
Proof. reflexivity. Qed.

(** ** The queries *)

Lemma Is_true_true (b : bool) : Is_true b <-> b = true.
Proof. destruct b; simpl; intuition congruence. Qed.

Lemma gt_true (f : option Z) (bound : Z) :
  gt f bound = true <-> exists e, f = Some e /\ (bound < e)%Z.
Proof.
  unfold gt. destruct f as [e|].
  - rewrite bool_decide_eq_true. split.
    + intros H. exists e. auto.
    + intros (e' & [= <-] & H). exact H.
  - split; [discriminate | intros (e & [=] & _)].
Qed.

Lemma by_reset_token_true (t : string) (bound : Z) (u : User.t) :
  by_reset_token t bound u = true <->
  User.passwordResetToken u = Some (VStr t) /\
  exists e, User.passwordResetExpires u = Some e /\ (bound < e)%Z.
Proof.
  unfold by_reset_token.
  rewrite andb_true_iff, bool_decide_eq_true, gt_true. reflexivity.
Qed.

Lemma first_match_Some (q : User.t -> bool) (l : list User.t) (d : document) :
  first_match q l = Some d <->
  exists i u, d = mkDoc (Some i) u /\ l !! i = Some u /\ q u = true /\
              forall j v, l !! j = Some v -> j < i -> q v = false.
Proof.
  unfold first_match.
  destruct (list_find _ l) as [[i u]|] eqn:Hf.
  - apply list_find_Some in Hf as (Hi & Hq & Hmin). split.
    + intros [= <-]. exists i, u. repeat split; auto.
      * by apply Is_true_true.
      * intros j v Hj Hlt. specialize (Hmin j v Hj Hlt).
        destruct (q v); simpl in *; tauto.
    + intros (i' & u' & -> & Hi' & Hq' & Hmin').
      destruct (Nat.lt_trichotomy i i') as [Hlt | [-> | Hlt]].
      * specialize (Hmin' i u Hi Hlt). rewrite Hmin' in Hq. destruct Hq.
      * rewrite Hi in Hi'. by injection Hi' as ->.
      * specialize (Hmin i' u' Hi' Hlt). rewrite Hq' in Hmin.
        destruct Hmin. exact I.
  - apply list_find_None in Hf. split; [discriminate|].
    intros (i & u & _ & Hi & Hq & _).
    rewrite Forall_forall in Hf. exfalso. apply (Hf u).
    + apply list_elem_of_lookup. eauto.
    + by apply Is_true_true.
Qed.

Lemma first_match_None (q : User.t -> bool) (l : list User.t) :
  first_match q l = None <-> forall u, u ∈ l -> q u = false.
Proof.
  unfold first_match.
  destruct (list_find _ l) as [[i u]|] eqn:Hf.
  - apply list_find_Some in Hf as (Hi & Hq & _). split; [discriminate|].
    intros H. rewrite (H u) in Hq; [destruct Hq|].
    apply list_elem_of_lookup. eauto.
  - split; [|reflexivity]. intros _ u Hu.
    apply list_find_None in Hf. rewrite Forall_forall in Hf.
    specialize (Hf u Hu). destruct (q u); simpl in *; tauto.
Qed.


(** ** GET /password/reset/:token *)

Lemma getResetToken_run (E : env) (req : request) (w : world) :
  findOne_error E = None ->
  headersSent w = false ->
  getResetToken E req w =
  (Val tt,
   mkWorld (users w) (session w) (next_id w) true
     (trace w ++
      [match first_match (by_reset_token (params_token req) (now E)) (users w) with
       | Some _ => Respond 200 "Valid token"
       | None => Respond 400 "Invalid or expired token"
       end])).
Proof.
  intros Hf Hh. unfold getResetToken. run_monad. rewrite Hf.
  destruct (first_match _ _); simpl; rewrite Hh; reflexivity.
Qed.

(** ** POST /password/reset/:token, when the lookup finds nothing *)

Lemma postResetToken_no_match (E : env) (req : request) (l : list User.t)
    (s : option User.t) (n : nat) :
  8 <= char_length (body_password req) ->
  body_confirmPassword req = body_password req ->
  findOne_error E = None ->
  first_match (by_reset_token (params_token req) (now E)) l = None ->
  let w' := snd (postResetToken E req (start l s n)) in
  responses (trace w') = [(400, "Invalid or expired token")] /\
  users w' = l /\ session w' = s.
Proof.
  intros Hlen Hc Hf Hm. unfold postResetToken.
  apply Nat.leb_le in Hlen. rewrite Hlen, Hc, String.eqb_refl. simpl.
  unfold postResetToken_resetPassword, postResetToken_sendResetPasswordEmail.
  run_monad. rewrite Hf, Hm. simpl.
  destruct (sendMail_error E false) as [e1|]; simpl.
  - destruct (String.eqb (message e1) self_signed); simpl.
    + destruct (sendMail_error E true); simpl; auto.
    + auto.
  - auto.
Qed.

(** ** POST /password/reset/:token, when the lookup finds a record *)

Lemma postResetToken_match (E : env) (req : request) (l : list User.t)
    (s : option User.t) (n i : nat) (u : User.t) :
  8 <= char_length (body_password req) ->
  body_confirmPassword req = body_password req ->
  findOne_error E = None ->
  save_error E = None ->
  first_match (by_reset_token (params_token req) (now E)) l
  = Some (mkDoc (Some i) u) ->
  let w' := snd (postResetToken E req (start l s n)) in
  users w' = <[i := reset_fields (body_password req) u]> l /\
  (logIn_error E = None ->
   session w' = Some (reset_fields (body_password req) u)).
Proof.
  intros Hlen Hc Hf Hs Hm. unfold postResetToken.
  apply Nat.leb_le in Hlen. rewrite Hlen, Hc, String.eqb_refl. simpl.
  unfold postResetToken_resetPassword, postResetToken_sendResetPasswordEmail.
  run_monad. rewrite Hf, Hm, Hs. simpl.
  destruct (logIn_error E) as [e0|]; simpl; [split; [reflexivity | discriminate]|].
  destruct (sendMail_error E false) as [e1|]; simpl.
  - destruct (String.eqb (message e1) self_signed); simpl.
    + destruct (sendMail_error E true); simpl; auto.
    + auto.
  - auto.
Qed.



(** A record without a token matches no token query. *)
Lemma by_reset_token_cleared (t : string) (bound : Z) (u : User.t) :
  User.passwordResetToken u = None -> by_reset_token t bound u = false.
Proof.
  intros H. destruct (by_reset_token t bound u) eqn:Hq; [|reflexivity].
  apply by_reset_token_true in Hq as (Ht & _). congruence.
Qed.

(** After slot [i] has been overwritten with a record that has no token,
    a token lookup can only return another slot, unchanged. *)
Lemma lookup_after_clear (t : string) (bound : Z) (l : list User.t)
    (i : nat) (u' : User.t) (d : document) :
  User.passwordResetToken u' = None ->
  first_match (by_reset_token t bound) (<[i := u']> l) = Some d ->
  exists j v, d = mkDoc (Some j) v /\ j <> i /\ l !! j = Some v /\
              by_reset_token t bound v = true.
Proof.
  intros Hnone Hd.
  apply first_match_Some in Hd as (j & v & -> & Hj & Hq & _).
  exists j, v. destruct (decide (j = i)) as [-> | Hne].
  - apply list_lookup_insert_Some in Hj as [(_ & <- & _) | (Hne & _)].
    + rewrite by_reset_token_cleared in Hq by exact Hnone. discriminate.
    + congruence.
  - rewrite list_lookup_insert_ne in Hj by auto. auto.
Qed.

(** C2, as the code has it. After a POST /password/reset/:token that
    found the token and saved the record, the stored record has the new password and neither a
    reset token nor a reset expiry (the two fields stay paired, there and
    in the whole collection); a later lookup with the old token never
    returns that record, and finds nothing at all when no other record
    carries the same token. *)
Theorem reset_completion_clears_token
    (E : env) (req : request) (l : list User.t) (s : option User.t)
    (n i : nat) (u : User.t)
    (Hlen : 8 <= char_length (body_password req))
    (Hconfirm : body_confirmPassword req = body_password req)
    (Hfind : findOne_error E = None)
    (Hsave : save_error E = None)
    (Hmatch : first_match (by_reset_token (params_token req) (now E)) l
              = Some (mkDoc (Some i) u)) :
  let w' := snd (postResetToken E req (start l s n)) in
  let t := params_token req in
  exists u',
    users w' = <[i := u']> l /\
    users w' !! i = Some u' /\
    User.password u' = Some (body_password req) /\
    User.passwordResetToken u' = None /\
    User.passwordResetExpires u' = None /\
    paired u' /\
    (Forall paired l -> Forall paired (users w')) /\
    (forall later d,
        first_match (by_reset_token t later) (users w') = Some d ->
        exists j v, d = mkDoc (Some j) v /\ j <> i /\ l !! j = Some v) /\
    ((forall j v, l !! j = Some v -> j <> i ->
                  User.passwordResetToken v <> Some (VStr t)) ->
     forall later, first_match (by_reset_token t later) (users w') = None).
Proof.
  intros w' t.
  destruct (postResetToken_match E req l s n i u Hlen Hconfirm Hfind Hsave Hmatch)
    as [Hw _].
  fold w' in Hw.
  apply first_match_Some in Hmatch as (i0 & u0 & [= <- <-] & Hi & _ & _).
  set (u' := reset_fields (body_password req) u) in *.
  assert (Hp : paired u') by (unfold paired; simpl; split; intros [? [=]]).
  exists u'. rewrite Hw. repeat split; try reflexivity.
  - apply list_lookup_insert_eq. by eapply lookup_lt_Some.
  - apply Hp.
  - apply Hp.
  - intros Hall. apply Forall_insert; auto.
  - intros later d Hd.
    apply lookup_after_clear in Hd as (j & v & -> & Hne & Hj & _); [|reflexivity].
    eauto.
  - intros Huniq later.
    destruct (first_match _ _) as [d|] eqn:Hd; [|reflexivity].
    apply lookup_after_clear in Hd as (j & v & -> & Hne & Hj & Hq); [|reflexivity].
    apply by_reset_token_true in Hq as (Ht & _).
    destruct (Huniq j v Hj Hne Ht).
Qed.

Lemma reset_completion_clears_token_witness :
  first_match (by_reset_token "abc123" 999) Sample.collection
  = Some (mkDoc (Some 1) Sample.alice) /\
  forall later,
    first_match (by_reset_token "abc123" later)
      (users (snd (postResetToken (Sample.at_time 999) Sample.req
                                  (start Sample.collection None 0))))
    = None.
Proof.
  split; [reflexivity|].
  destruct (reset_completion_clears_token
              (Sample.at_time 999) Sample.req Sample.collection None 0
              1 Sample.alice)
    as (u' & _ & _ & _ & _ & _ & _ & _ & _ & H).
  - simpl. lia.
  - reflexivity.
  - reflexivity.
  - reflexivity.
  - reflexivity.
  - apply H. intros j v Hj Hne.
    destruct j as [|[|j]]; simpl in Hj.
    + injection Hj as <-. discriminate.
    + congruence.
    + discriminate.
Defined.

(** Counterexample to C2 as stated. Alice and Bob both asked for a reset
    link and the random source gave both the same bytes, so both records
    carry the same token. A POST /password/reset/:token with that token
    completes: it answers 200 "Password updated" and the record it reset
    has neither token nor expiry. Yet a lookup with the old token still
    succeeds afterwards, on the other record, and GET answers 200. *)
Lemma reset_completion_shared_token_still_accepted :
  let E := Sample.at_time 900 in
  let req := Scenario.alice_reset in
  let w' := snd (postResetToken E req (start Scenario.same_bytes None 0)) in
  responses (trace w') = [(200, "Password updated")] /\
  (exists i u u',
      first_match (by_reset_token (params_token req) (now E)) Scenario.same_bytes
      = Some (mkDoc (Some i) u) /\
      users w' !! i = Some u' /\
      User.password u' = Some (body_password req) /\
      User.passwordResetToken u' = None /\
      User.passwordResetExpires u' = None) /\
  responses (trace (snd (getResetToken E req (start (users w') None 0))))
  = [(200, "Valid token")] /\
  ~ (forall later,
        first_match (by_reset_token (params_token req) later) (users w') = None).
Proof.
  split; [reflexivity|]. split.
  { eexists 0, _, _. repeat split; reflexivity. }
  split; [reflexivity|].
  intros H. specialize (H 900%Z). vm_compute in H. discriminate H.
Qed.

(** ** POST /signup *)

Lemma first_match_elem (q : User.t -> bool) (l : list User.t) (u : User.t) :
  u ∈ l -> q u = true -> is_Some (first_match q l).
Proof.
  intros Hu Hq. destruct (first_match q l) eqn:Hm; [eauto|].
  rewrite first_match_None in Hm. specialize (Hm u Hu). congruence.
Qed.

(** The credits loop of a request, run by its handler. *)
Lemma new_records_run (E : env) (credits : field element) (w : world) :
  let n' := (signup_records (now E) (next_id w) (entries credits)).1.1 in
  let w' := mkWorld (users w) (session w) n' (headersSent w) (trace w) in
  new_records E credits w =
  if has_null credits then (Exn (null_read_TypeError "generateReport"), w')
  else (Val ((signup_records (now E) (next_id w) (entries credits)).1.2,
             (signup_records (now E) (next_id w) (entries credits)).2), w').
Proof.
  unfold new_records, has_null, entries.
  destruct (readable credits) as [es null]. simpl.
  destruct (signup_records _ _ es) as [[n' cs] rs]. simpl.
  destruct null; reflexivity.
Qed.

(** C3, as the code has it. A POST /signup that passes the field
    validation while a stored record already has the normalized email
    leaves the collection and the session as they were. When the credits
    of the request hold no [null] element it answers 400 "Email already
    registered" and nothing else; when they hold one, the credits loop
    throws before the lookup and the handler sends nothing. *)
Theorem signup_duplicate_email_rejected
    (V : validator) (E : env) (req : request) (l : list User.t)
    (s : option User.t) (n : nat) (existingUser : User.t)
    (Hphone : isMobilePhone V (body_phone req) = true)
    (Hcard : isCreditCard V (body_creditCard req) = true)
    (Hemail : isEmail V (body_email req) = true)
    (Hfind : findOne_error E = None)
    (Hstored : existingUser ∈ l)
    (Hsame : User.email existingUser = normalizeEmail V (body_email req)) :
  let r := postSignup V E req (start l s n) in
  users (snd r) = l /\
  session (snd r) = s /\
  (has_null (body_credits req) = false ->
   fst r = Val tt /\
   trace (snd r) = [Respond 400 "Email already registered"]) /\
  (has_null (body_credits req) = true ->
   fst r = Exn (null_read_TypeError "generateReport") /\
   trace (snd r) = []).
Proof.
  unfold postSignup. rewrite Hphone, Hcard, Hemail. simpl.
  cbv [mbind M_bind]. rewrite new_records_run.
  destruct (has_null (body_credits req)); simpl.
  - repeat split; congruence.
  - run_monad. rewrite Hfind.
    destruct (first_match_elem (by_email (normalizeEmail V (body_email req)))
                l existingUser Hstored) as [d Hd].
    { unfold by_email. by apply bool_decide_eq_true. }
    simpl. rewrite Hd. simpl. repeat split; congruence.
Qed.

Lemma signup_duplicate_email_rejected_witness :
  Sample.alice ∈ Sample.collection /\
  users (snd (postSignup Sample.checks (Sample.at_time 5) Sample.req
                         (start Sample.collection None 0)))
  = Sample.collection /\
  trace (snd (postSignup Sample.checks (Sample.at_time 5) Sample.req
                         (start Sample.collection None 0)))
  = [Respond 400 "Email already registered"].
Proof.
  assert (Hin : Sample.alice ∈ Sample.collection)
    by (apply list_elem_of_In; simpl; auto).
  split; [exact Hin|].
  destruct (signup_duplicate_email_rejected
              Sample.checks (Sample.at_time 5) Sample.req Sample.collection
              None 0 Sample.alice eq_refl eq_refl eq_refl eq_refl Hin eq_refl)
    as (Hu & _ & Hok & _).
  split; [exact Hu | exact (proj2 (Hok eq_refl))].
Defined.

(** Counterexample to C3 as stated. A signup that passes the field
    validation under an email that is already registered, with
    [credits: [null]]: the credits loop throws, and no 400 "Email already
    registered" is sent. *)
Lemma signup_null_credit_gets_no_conflict_answer :
  let r := postSignup Scenario.picky (Sample.at_time 5) Scenario.null_credits
                      (start Sample.collection None 0) in
  isMobilePhone Scenario.picky (body_phone Scenario.null_credits) = true /\
  isCreditCard Scenario.picky (body_creditCard Scenario.null_credits) = true /\
  isEmail Scenario.picky (body_email Scenario.null_credits) = true /\
  User.email Sample.alice
  = normalizeEmail Scenario.picky (body_email Scenario.null_credits) /\
  fst r = Exn (null_read_TypeError "generateReport") /\
  ~ In (Respond 400 "Email already registered") (trace (snd r)).
Proof.
  repeat split; try reflexivity. vm_compute. tauto.
Qed.

(** ** GET /password/reset/:token is read-only *)

(** C8. GET /password/reset/:token leaves the collection (every record,
    with all its fields) and the session exactly as they were, whatever the
    token, the clock and the store answer. *)
Theorem getResetToken_no_mutation (E : env) (req : request) (w : world) :
  users (snd (getResetToken E req w)) = users w /\
  session (snd (getResetToken E req w)) = session w /\
  forall i, users (snd (getResetToken E req w)) !! i = users w !! i.
Proof.
  assert (H : users (snd (getResetToken E req w)) = users w /\
              session (snd (getResetToken E req w)) = session w).
  { unfold getResetToken. run_monad.
    destruct (findOne_error E); simpl; [auto|].
    destruct (first_match _ _); simpl; destruct (headersSent w); simpl; auto. }
  destruct H as [Hu Hs]. rewrite Hu. auto.
Qed.

(** ** POST /password/update *)

(** C9. A POST /password/update that passes validation while the store
    answers the lookup by the session identity with no record throws the
    TypeError of assigning [password] on [null]: no response is sent,
    [next] is not called, nothing is written. *)
Theorem password_update_unknown_identity_throws
    (E : env) (req : request) (l : list User.t) (s : option User.t) (n : nat)
    (Hlen : 8 <= char_length (body_password req))
    (Hconfirm : body_confirmPassword req = body_password req)
    (Hfind : findOne_error E = None)
    (Hnobody : forall u, u ∈ l -> User.email u <> user req) :
  postUpdatePassword E req (start l s n)
  = (Exn (null_TypeError "password"), start l s n).
Proof.
  unfold postUpdatePassword.
  apply Nat.leb_le in Hlen. rewrite Hlen, Hconfirm, String.eqb_refl. simpl.
  run_monad. rewrite Hfind. simpl.
  assert (first_match (by_email (user req)) l = None) as ->.
  { apply first_match_None. intros u Hu. unfold by_email.
    apply bool_decide_eq_false. auto. }
  reflexivity.
Qed.

Lemma password_update_unknown_identity_throws_witness :
  8 <= char_length (body_password Sample.stranger) /\
  postUpdatePassword (Sample.at_time 5) Sample.stranger
                     (start Sample.collection None 0)
  = (Exn (null_TypeError "password"), start Sample.collection None 0).
Proof.
  split; [simpl; lia|].
  apply (password_update_unknown_identity_throws
           (Sample.at_time 5) Sample.stranger Sample.collection None 0).
  - simpl. lia.
  - reflexivity.
  - reflexivity.
  - intros u Hu. apply list_elem_of_In in Hu. simpl in Hu.
    destruct Hu as [<- | [<- | []]]; discriminate.
Defined.

(** ** Signup: credits and reports *)

Lemma linked_mono expiry rs rs' entry credit :
  linked expiry rs entry credit -> linked expiry (rs ++ rs') entry credit.
Proof.
  intros (Ht & He & Hyes & Hno).
  split; [exact Ht|]. split; [exact He|]. split; [|exact Hno].
  intros Hg. destruct (Hyes Hg) as (Hh & r & Hr & Hid & Hty).
  split; [exact Hh|]. exists r. rewrite elem_of_app. auto.
Qed.

Lemma forEach_credit_invariant (expiry : Z) (n : nat) (l : list Entry.t) :
  exists n' cs rs,
    fold_left (forEach_credit expiry) l (n, [], []) = (n', cs, rs) /\
    n <= n' /\
    length cs = length l /\
    (forall r, r ∈ rs -> n <= Report._id r < n') /\
    NoDup (map Report._id rs) /\
    forall i entry, l !! i = Some entry ->
      exists credit, cs !! i = Some credit /\ linked expiry rs entry credit.
Proof.
  induction l as [|x l IH] using rev_ind.
  - exists n, [], []. simpl.
    split; [reflexivity|]. split; [lia|]. split; [reflexivity|].
    split; [intros r Hr; inversion Hr|]. split; [constructor|].
    intros i entry Hi. discriminate.
  - destruct IH as (n' & cs & rs & Hfold & Hle & Hlen & Hids & Hnd & Hall).
    rewrite fold_left_app, Hfold. simpl.
    assert (Hold : forall rs' c' i entry, (l ++ [x]) !! i = Some entry ->
              i < length l ->
              exists credit, (cs ++ [c']) !! i = Some credit /\
                             linked expiry (rs ++ rs') entry credit).
    { intros rs' c' i entry Hi Hlt.
      rewrite lookup_app_l in Hi by exact Hlt.
      destruct (Hall i entry Hi) as (credit & Hc & Hl).
      exists credit. split; [|by apply linked_mono].
      rewrite lookup_app_l; [exact Hc|]. by eapply lookup_lt_Some. }
    assert (Hlast : forall i entry, (l ++ [x]) !! i = Some entry ->
              i < length l \/ (i = length l /\ entry = x)).
    { intros i entry Hi. apply lookup_app_Some in Hi as [Hi | [Hge Hi]].
      - left. by eapply lookup_lt_Some.
      - right. destruct (i - length l) as [|k] eqn:Hk; simpl in Hi; [|discriminate].
        injection Hi as <-. split; [lia | reflexivity]. }
    destruct (truthy (Entry.generateReport x)) eqn:Hg.
    + eexists _, _, _. split; [reflexivity|].
      split; [lia|].
      split; [rewrite !length_app; simpl; lia|].
      split.
      { intros r Hr. apply elem_of_app in Hr as [Hr | Hr].
        - specialize (Hids r Hr). lia.
        - apply list_elem_of_singleton in Hr as ->. simpl. lia. }
      split.
      { rewrite map_app. simpl. apply NoDup_app. split; [exact Hnd|].
        split; [|apply NoDup_singleton].
        intros k Hk Hk'. apply list_elem_of_singleton in Hk' as ->.
        apply list_elem_of_fmap in Hk as (r & Hr1 & Hr2).
        specialize (Hids r Hr2). lia. }
      intros i entry Hi. destruct (Hlast i entry Hi) as [Hlt | [-> ->]].
      * by apply Hold.
      * eexists. split.
        { rewrite lookup_app_r by lia. rewrite Hlen, Nat.sub_diag. reflexivity. }
        split; [reflexivity|]. split; [reflexivity|]. split.
        -- intros _. split; [reflexivity|]. eexists. split.
           ++ apply elem_of_app. right. apply list_elem_of_singleton. reflexivity.
           ++ split; reflexivity.
        -- congruence.
    + eexists _, _, _. split; [reflexivity|].
      split; [lia|].
      split; [rewrite !length_app; simpl; lia|].
      split; [intros r Hr; specialize (Hids r Hr); lia|].
      split; [exact Hnd|].
      intros i entry Hi. destruct (Hlast i entry Hi) as [Hlt | [-> ->]].
      * destruct (Hold [] (Credit.mk n' (Entry.creditType x) expiry None None)
                       i entry Hi Hlt) as (credit & Hc & Hl).
        rewrite app_nil_r in Hl. eauto.
      * eexists. split.
        { rewrite lookup_app_r by lia. rewrite Hlen, Nat.sub_diag. reflexivity. }
        split; [reflexivity|]. split; [reflexivity|]. split.
        -- congruence.
        -- intros _. split; reflexivity.
Qed.

(** C6. For every entry of the request's credits list, the Credit built
    for it (at the same position) has the entry's type and the two-year
    expiry; when [generateReport] is true (truthy), its [hasReport] flag is
    set and its [reportId] is the identifier of a Report built in the same
    pass, of the entry's type, and no two of these Reports share an
    identifier; when [generateReport] is false (falsy), it has neither the
    flag nor a reference. *)
Theorem signup_credit_report_linkage (t : Z) (n : nat) (l : list Entry.t) :
  exists n' tempCredits tempReports,
    signup_records t n (Arr l) = (n', Arr tempCredits, Some tempReports) /\
    length tempCredits = length l /\
    NoDup (map Report._id tempReports) /\
    forall i entry, l !! i = Some entry ->
      exists credit,
        tempCredits !! i = Some credit /\
        Credit.creditType credit = Entry.creditType entry /\
        Credit.expiresAt credit = (t + two_years)%Z /\
        (truthy (Entry.generateReport entry) = true ->
         Credit.hasReport credit = Some true /\
         exists report,
           report ∈ tempReports /\
           Credit.reportId credit = Some (Report._id report) /\
           Report.reportType report = Entry.creditType entry) /\
        (truthy (Entry.generateReport entry) = false ->
         Credit.hasReport credit = None /\ Credit.reportId credit = None).
Proof.
  destruct (forEach_credit_invariant (t + two_years)%Z n l)
    as (n' & cs & rs & Hfold & _ & Hlen & _ & Hnd & Hall).
  exists n', cs, rs. unfold signup_records. rewrite Hfold.
  split; [reflexivity|]. split; [exact Hlen|]. split; [exact Hnd|].
  intros i entry Hi. destruct (Hall i entry Hi) as (credit & Hc & Hl).
  exists credit. split; [exact Hc | exact Hl].
Qed.

Lemma signup_credit_report_linkage_witness :
  Sample.credits !! 0 = Some (Entry.mk (VStr "auto") (VBool true)) /\
  exists tempCredits tempReports credit report,
    signup_records 0 7 (Arr Sample.credits)
    = (10, Arr tempCredits, Some tempReports) /\
    tempCredits !! 0 = Some credit /\
    report ∈ tempReports /\
    Credit.hasReport credit = Some true /\
    Credit.reportId credit = Some (Report._id report).
Proof.
  split; [reflexivity|].
  destruct (signup_credit_report_linkage 0 7 Sample.credits)
    as (n' & cs & rs & Heq & _ & _ & H).
  destruct (H 0 _ eq_refl) as (credit & Hc & _ & _ & Hyes & _).
  destruct (Hyes eq_refl) as (Hflag & report & Hin & Hid & _).
  exists cs, rs, credit, report.
  split; [|auto].
  rewrite Heq. vm_compute in Heq. injection Heq as <- _ _. reflexivity.
Defined.

(** The records reach the store with the user: a signup that passes
    validation, whose credits hold no [null], that finds no record with
    the email and saves, appends one user carrying exactly the credits and
    reports of [signup_records]. *)
Lemma postSignup_persists_records
    (V : validator) (E : env) (req : request) (l : list User.t)
    (s : option User.t) (n : nat) :
  isMobilePhone V (body_phone req) = true ->
  isCreditCard V (body_creditCard req) = true ->
  isEmail V (body_email req) = true ->
  findOne_error E = None ->
  save_error E = None ->
  first_match (by_email (normalizeEmail V (body_email req))) l = None ->
  has_null (body_credits req) = false ->
  exists u,
    users (snd (postSignup V E req (start l s n))) = l ++ [u] /\
    User.email u = normalizeEmail V (body_email req) /\
    (next_id (snd (postSignup V E req (start l s n))),
     User.credits u, User.reports u)
    = signup_records (now E) n (entries (body_credits req)).
Proof.
  intros Hphone Hcard Hemail Hfind Hsave Hnone Hcredits.
  unfold postSignup. rewrite Hphone, Hcard, Hemail. simpl.
  cbv [mbind M_bind]. rewrite new_records_run, Hcredits. simpl.
  destruct (signup_records _ _ _) as [[n' cs] rs]. simpl.
  run_monad. rewrite Hfind. simpl.
  rewrite Hnone, Hsave. simpl.
  destruct (logIn_error E); simpl; eexists; eauto.
Qed.

(** ** POST /password/reset *)

Lemma postReset_mail_step (V : validator) (E : env) (req : request)
    (l : list User.t) (s : option User.t) (n i : nat) (u : User.t) :
  isEmail V (body_email req) = true ->
  findOne_error E = None ->
  save_error E = None ->
  first_match (by_email (normalizeEmail V (body_email req))) l
  = Some (mkDoc (Some i) u) ->
  let r := postReset V E req (start l s n) in
  let u' := issue_fields (createRandomToken E) (now E) u in
  fst r = Val tt /\
  users (snd r) = <[i := u']> l /\
  session (snd r) = s /\
  trace (snd r)
  = Saved i u' :: SendMail false (request_mail req u')
      :: request_mail_outcome E (request_mail req u').
Proof.
  intros Hemail Hfind Hsave Hm.
  unfold postReset. rewrite Hemail. simpl.
  unfold postReset_setRandomToken, postReset_sendResetPasswordEmail.
  run_monad. rewrite Hfind. simpl. rewrite Hm, Hsave. simpl.
  unfold request_mail_outcome.
  destruct (sendMail_error E false) as [e1|]; simpl.
  - destruct (String.eqb (message e1) self_signed); simpl.
    + destruct (sendMail_error E true); simpl; auto.
    + auto.
  - auto.
Qed.

Ltac trace_facts := repeat split; simpl; try lia; repeat constructor.

Lemma postReset_every_run (V : validator) (E : env) (req : request)
    (l : list User.t) (s : option User.t) (n : nat) :
  let r := postReset V E req (start l s n) in
  fst r = Val tt /\
  length (responses (trace (snd r))) <= 1 /\
  Forall (fun ev => is_Next ev = false) (trace (snd r)) /\
  saved_before_send false (trace (snd r)) = true.
Proof.
  unfold postReset.
  destruct (isEmail V (body_email req)); simpl.
  2: { run_monad. trace_facts. }
  unfold postReset_setRandomToken, postReset_sendResetPasswordEmail.
  run_monad.
  destruct (findOne_error E); simpl; [trace_facts|].
  destruct (first_match _ l) as [d|]; simpl; [|trace_facts].
  destruct (save_error E); simpl; [trace_facts|].
  destruct (write _ l) as [i l'] eqn:Hw. simpl.
  destruct (sendMail_error E false) as [e1|]; simpl.
  - destruct (String.eqb (message e1) self_signed); simpl.
    + destruct (sendMail_error E true); simpl; trace_facts.
    + trace_facts.
  - trace_facts.
Qed.

(** C4, as the code has it.  A POST /password/reset never sends more than
    one response.  When it reaches the mail step and the first attempt
    succeeds, the response "Email sent" directly follows that attempt and
    nothing is retried.  When the first attempt fails with the self-signed
    certificate error and the attempt over the relaxed transport succeeds,
    the one response "Email sent" is sent after the retry. *)
Theorem reset_request_single_response
    (V : validator) (E : env) (req : request) (l : list User.t)
    (s : option User.t) (n : nat) :
  let tr := trace (snd (postReset V E req (start l s n))) in
  length (responses tr) <= 1 /\
  forall i u,
    isEmail V (body_email req) = true ->
    findOne_error E = None ->
    save_error E = None ->
    first_match (by_email (normalizeEmail V (body_email req))) l
    = Some (mkDoc (Some i) u) ->
    let u' := issue_fields (createRandomToken E) (now E) u in
    let m := request_mail req u' in
    (sendMail_error E false = None ->
     tr = [Saved i u'; SendMail false m; Respond 200 "Email sent"]) /\
    (forall err,
        sendMail_error E false = Some err ->
        message err = self_signed ->
        sendMail_error E true = None ->
        tr = [Saved i u'; SendMail false m; Debug downgrade_warning None;
              SendMail true m; Respond 200 "Email sent"]).
Proof.
  intros tr. split.
  - apply (postReset_every_run V E req l s n).
  - intros i u Hemail Hfind Hsave Hm u' m.
    destruct (postReset_mail_step V E req l s n i u Hemail Hfind Hsave Hm)
      as (_ & _ & _ & Htr).
    fold tr u' m in Htr. rewrite Htr. unfold request_mail_outcome. split.
    + intros ->. reflexivity.
    + intros err -> -> ->. reflexivity.
Qed.

Lemma reset_request_single_response_witness :
  sendMail_error (Sample.mail_fails (Some Sample.SELF_SIGNED) None) false
  = Some Sample.SELF_SIGNED /\
  responses (trace (snd (postReset Sample.checks
                           (Sample.mail_fails (Some Sample.SELF_SIGNED) None)
                           Sample.req (start Sample.collection None 0))))
  = [(200, "Email sent")].
Proof.
  split; [reflexivity|].
  destruct (reset_request_single_response
              Sample.checks (Sample.mail_fails (Some Sample.SELF_SIGNED) None)
              Sample.req Sample.collection None 0) as [_ H].
  destruct (H 1 Sample.alice eq_refl eq_refl eq_refl eq_refl) as [_ Hretry].
  rewrite (Hretry Sample.SELF_SIGNED eq_refl eq_refl eq_refl). reflexivity.
Defined.

(** Counterexample to C4 as stated.  In the run in which the default
    transport meets a self-signed certificate and the relaxed one succeeds,
    the one response is sent after the retry, not right after the first
    attempt. *)
Lemma reset_request_success_after_retry :
  ~ answered_once_after_first_send
      (trace (snd (postReset Sample.checks
                     (Sample.mail_fails (Some Sample.SELF_SIGNED) None)
                     Sample.req (start Sample.collection None 0)))).
Proof. intros [_ [rest H]]. vm_compute in H. discriminate H. Qed.

(** The mail step answers nothing when the first attempt fails with
    another error, or when the retry fails too. *)
Lemma request_mail_outcome_hard_failure (E : env) (m : Mail.options) (err : error) :
  sendMail_error E false = Some err ->
  message err <> self_signed \/ is_Some (sendMail_error E true) ->
  responses (request_mail_outcome E m) = [].
Proof.
  intros H1 H2. unfold request_mail_outcome. rewrite H1.
  destruct (String.eqb_spec (message err) self_signed) as [Heq | Hne].
  - destruct H2 as [H2 | [e2 H2]]; [contradiction|]. rewrite H2. reflexivity.
  - reflexivity.
Qed.

(** C5, evaluated.  A POST /password/reset for a known email whose first
    mail attempt fails with a connection error, and one whose retry after
    the self-signed certificate error fails, both end without any response
    and without a call to [next]: the request stays unanswered, where the
    specification asks for a 500 "error sending email". *)
Theorem reset_request_hard_mail_failure_unanswered :
  let run E :=
    postReset Sample.checks E Sample.req (start Sample.collection None 0) in
  let hard := run (Sample.mail_fails (Some Sample.ECONNREFUSED) None) in
  let twice :=
    run (Sample.mail_fails (Some Sample.SELF_SIGNED) (Some Sample.ECONNREFUSED)) in
  (fst hard = Val tt /\
   responses (trace (snd hard)) = [] /\
   Forall (fun ev => is_Next ev = false) (trace (snd hard)) /\
   headersSent (snd hard) = false) /\
  (fst twice = Val tt /\
   responses (trace (snd twice)) = [] /\
   Forall (fun ev => is_Next ev = false) (trace (snd twice)) /\
   headersSent (snd twice) = false).
Proof.
  intros run hard twice.
  split; (split; [reflexivity|]); (split; [reflexivity|]);
    (split; [|reflexivity]); vm_compute; repeat constructor.
Qed.

(** The same for every request that reaches the mail step. *)
Lemma postReset_hard_mail_failure (V : validator) (E : env) (req : request)
    (l : list User.t) (s : option User.t) (n i : nat) (u : User.t) (err : error) :
  isEmail V (body_email req) = true ->
  findOne_error E = None ->
  save_error E = None ->
  first_match (by_email (normalizeEmail V (body_email req))) l
  = Some (mkDoc (Some i) u) ->
  sendMail_error E false = Some err ->
  message err <> self_signed \/ is_Some (sendMail_error E true) ->
  let r := postReset V E req (start l s n) in
  fst r = Val tt /\
  responses (trace (snd r)) = [] /\
  Forall (fun ev => is_Next ev = false) (trace (snd r)).
Proof.
  intros Hemail Hfind Hsave Hm H1 H2 r.
  destruct (postReset_mail_step V E req l s n i u Hemail Hfind Hsave Hm)
    as (Hr & _ & _ & Htr).
  fold r in Hr, Htr. split; [exact Hr|]. split.
  - rewrite Htr. simpl.
    apply (request_mail_outcome_hard_failure E _ err H1 H2).
  - apply (postReset_every_run V E req l s n).
Qed.

(** C10. When the random source fails during a POST /password/reset for
    a known email, the caught error becomes the token: the handler saves
    the error value as the record's reset token with an expiry one hour
    ahead, goes on to the mail step with a link built from it, never calls
    [next], raises nothing, and the only response it may send is the
    success response "Email sent". *)
Theorem token_generation_failure_stored_as_token
    (V : validator) (E : env) (req : request) (l : list User.t)
    (s : option User.t) (n i : nat) (u : User.t) (err : error)
    (Hemail : isEmail V (body_email req) = true)
    (Hrandom : randomBytes E = inl err)
    (Hfind : findOne_error E = None)
    (Hsave : save_error E = None)
    (Hknown : first_match (by_email (normalizeEmail V (body_email req))) l
              = Some (mkDoc (Some i) u)) :
  let r := postReset V E req (start l s n) in
  let u' := issue_fields (VErr err) (now E) u in
  let m := Mail.mk (Some (User.email u)) sender "Reset password requested"
                   (reset_request_text (headers_host req) (VErr err)) in
  createRandomToken E = VErr err /\
  fst r = Val tt /\
  users (snd r) = <[i := u']> l /\
  users (snd r) !! i = Some u' /\
  User.passwordResetToken u' = Some (VErr err) /\
  User.passwordResetExpires u' = Some (now E + 3600000)%Z /\
  (exists rest, trace (snd r) = Saved i u' :: SendMail false m :: rest) /\
  Forall (fun ev => is_Next ev = false) (trace (snd r)) /\
  Forall (fun answer => answer = (200, "Email sent")) (responses (trace (snd r))).
Proof.
  intros r u' m.
  assert (Htok : createRandomToken E = VErr err)
    by (unfold createRandomToken; rewrite Hrandom; reflexivity).
  destruct (postReset_mail_step V E req l s n i u Hemail Hfind Hsave Hknown)
    as (Hr & Hu & _ & Htr).
  rewrite Htok in Hu, Htr. fold r u' in Hr, Hu, Htr.
  apply first_match_Some in Hknown as (i0 & u0 & [= <- <-] & Hi & _ & _).
  split; [exact Htok|]. split; [exact Hr|]. split; [exact Hu|].
  split; [rewrite Hu; apply list_lookup_insert_eq; by eapply lookup_lt_Some|].
  split; [reflexivity|]. split; [reflexivity|].
  split; [eexists; exact Htr|].
  split; [apply (postReset_every_run V E req l s n)|].
  rewrite Htr. simpl. unfold request_mail_outcome.
  destruct (sendMail_error E false) as [e1|]; simpl.
  - destruct (String.eqb (message e1) self_signed); simpl.
    + destruct (sendMail_error E true); simpl; repeat constructor.
    + constructor.
  - repeat constructor.
Qed.

Lemma token_generation_failure_stored_as_token_witness :
  randomBytes Sample.no_entropy = inl Sample.EAGAIN /\
  users (snd (postReset Sample.checks Sample.no_entropy Sample.req
                        (start Sample.collection None 0)))
  = [Sample.bob;
     issue_fields (VErr Sample.EAGAIN) 500 Sample.alice].
Proof.
  split; [reflexivity|].
  destruct (token_generation_failure_stored_as_token
              Sample.checks Sample.no_entropy Sample.req Sample.collection
              None 0 1 Sample.alice Sample.EAGAIN
              eq_refl eq_refl eq_refl eq_refl eq_refl)
    as (_ & _ & H & _).
  exact H.
Defined.

(** ** Saves and mail attempts, in order *)

(** In POST /password/reset every mail attempt comes after the save. *)
Lemma postReset_saves_before_sending
    (V : validator) (E : env) (req : request) (l : list User.t)
    (s : option User.t) (n : nat) :
  saved_before_send false (trace (snd (postReset V E req (start l s n)))) = true.
Proof. apply (postReset_every_run V E req l s n). Qed.

(** So it does in POST /password/reset/:token when the lookup finds a
    record. *)
Lemma postResetToken_match_saves_before_sending
    (E : env) (req : request) (l : list User.t) (s : option User.t) (n : nat)
    (d : document) :
  findOne_error E = None ->
  first_match (by_reset_token (params_token req) (now E)) l = Some d ->
  saved_before_send false (trace (snd (postResetToken E req (start l s n)))) = true.
Proof.
  intros Hfind Hm. unfold postResetToken.
  destruct (8 <=? char_length (body_password req)); simpl.
  2: { run_monad. reflexivity. }
  destruct (String.eqb (body_confirmPassword req) (body_password req)); simpl.
  2: { run_monad. reflexivity. }
  unfold postResetToken_resetPassword, postResetToken_sendResetPasswordEmail.
  run_monad. rewrite Hfind. simpl. rewrite Hm.
  destruct (save_error E); simpl; [reflexivity|].
  destruct (write _ l) as [i l'].
  destruct (logIn_error E); simpl; [reflexivity|].
  destruct (sendMail_error E false) as [e1|]; simpl.
  - destruct (String.eqb (message e1) self_signed); simpl.
    + destruct (sendMail_error E true); simpl; reflexivity.
    + reflexivity.
  - reflexivity.
Qed.

(** When the lookup finds nothing, [resetPassword] resolves with the
    response object that [res.json] returned, [sendResetPasswordEmail]
    takes it for a user, and a mail is attempted although nothing was
    saved. *)
Lemma postResetToken_no_match_sends_unsaved
    (E : env) (req : request) (l : list User.t) (s : option User.t) (n : nat) :
  8 <= char_length (body_password req) ->
  body_confirmPassword req = body_password req ->
  findOne_error E = None ->
  first_match (by_reset_token (params_token req) (now E)) l = None ->
  exists rest,
    trace (snd (postResetToken E req (start l s n)))
    = Respond 400 "Invalid or expired token"
        :: SendMail false (Mail.mk None sender "Your password has been changed"
                                   (reset_done_text None))
        :: rest /\
    saved_before_send false (trace (snd (postResetToken E req (start l s n))))
    = false.
Proof.
  intros Hlen Hc Hf Hm. unfold postResetToken.
  apply Nat.leb_le in Hlen. rewrite Hlen, Hc, String.eqb_refl. simpl.
  unfold postResetToken_resetPassword, postResetToken_sendResetPasswordEmail.
  run_monad. rewrite Hf, Hm. simpl.
  destruct (sendMail_error E false) as [e1|]; simpl.
  - destruct (String.eqb (message e1) self_signed); simpl.
    + destruct (sendMail_error E true); simpl; eauto.
    + eauto.
  - eauto.
Qed.

(** C7, evaluated.  A POST /password/reset/:token with a valid body and a
    token no record carries answers 400 and then attempts the confirmation
    mail (to no recipient) without any save having happened; the
    specification asks that no mail is attempted before the record has been
    saved. *)
Theorem reset_completion_unknown_token_mails_without_save :
  let r := postResetToken (Sample.at_time 5) Sample.stranger
                          (start Sample.collection None 0) in
  first_match (by_reset_token (params_token Sample.stranger) 5) Sample.collection
  = None /\
  trace (snd r)
  = [Respond 400 "Invalid or expired token";
     SendMail false (Mail.mk None sender "Your password has been changed"
                             (reset_done_text None));
     Debug ("ERROR: Could not send password reset confirmation email after security downgrade." ++ nl)
           (Some ERR_HTTP_HEADERS_SENT)] /\
  saved_before_send false (trace (snd r)) = false /\
  users (snd r) = Sample.collection.
Proof. repeat split; reflexivity. Qed.

(** * Further properties of the handlers *)

Ltac run_session :=
  cbv [mbind mret M_bind M_ret catch callback throw emit next debug respond
       findOne save logIn sendMail new_records start log req_logout
       authenticate deleteOne isAuthenticated]; simpl.

(** ** Which records a handler rewrites *)

Lemma first_match_slot (q : User.t -> bool) (l : list User.t) (d : document) :
  first_match q l = Some d ->
  exists i, d = mkDoc (Some i) (fields d) /\ l !! i = Some (fields d) /\
            q (fields d) = true.
Proof.
  intros H. apply first_match_Some in H as (i & u & -> & Hi & Hq & _).
  exists i. simpl. auto.
Qed.

Lemma rewrites_first_length q f l l' :
  rewrites_first q f l l' -> length l' = length l.
Proof.
  intros [-> | (i & u & _ & ->)]; [reflexivity | apply length_insert].
Qed.

Lemma rewrites_first_Forall (P : User.t -> Prop) q f l l' :
  (forall u, P u -> P (f u)) ->
  rewrites_first q f l l' -> Forall P l -> Forall P l'.
Proof.
  intros Hf [-> | (i & u & Hm & ->)] Hall; [exact Hall|].
  apply first_match_Some in Hm as (i0 & u0 & [= <- <-] & Hi & _).
  apply Forall_insert; [exact Hall|].
  apply Hf. rewrite Forall_lookup in Hall. by apply (Hall i).
Qed.

Lemma rewrites_first_frame q f l l' :
  rewrites_first q f l l' ->
  l' = l \/
  exists i u, l !! i = Some u /\ q u = true /\ l' !! i = Some (f u) /\
              forall j, j <> i -> l' !! j = l !! j.
Proof.
  intros [-> | (i & u & Hm & ->)]; [by left | right].
  apply first_match_Some in Hm as (i0 & u0 & [= <- <-] & Hi & Hq & _).
  exists i, u. split; [exact Hi|]. split; [exact Hq|]. split.
  - apply list_lookup_insert_eq. by eapply lookup_lt_Some.
  - intros j Hj. by apply list_lookup_insert_ne.
Qed.

Lemma postUpdatePassword_rewrites (E : env) (req : request)
    (l : list User.t) (s : option User.t) (n : nat) :
  rewrites_first (by_email (user req))
                 (User.set_password (Some (body_password req)))
                 l (users (snd (postUpdatePassword E req (start l s n)))).
Proof.
  unfold postUpdatePassword, assert.
  destruct (8 <=? _); simpl; [|run_monad; by left].
  destruct (String.eqb _ _); simpl; [|run_monad; by left].
  run_monad.
  destruct (findOne_error E); simpl; [by left|].
  destruct (first_match _ l) as [d|] eqn:Hm; simpl; [|by left].
  destruct (first_match_slot _ _ _ Hm) as (i & Hd & _). rewrite Hd in *.
  destruct (save_error E); simpl; [by left|].
  right. eauto.
Qed.

Lemma postReset_rewrites (V : validator) (E : env) (req : request)
    (l : list User.t) (s : option User.t) (n : nat) :
  rewrites_first (by_email (normalizeEmail V (body_email req)))
                 (issue_fields (createRandomToken E) (now E))
                 l (users (snd (postReset V E req (start l s n)))).
Proof.
  unfold postReset, assert.
  destruct (isEmail V _); simpl; [|run_monad; by left].
  unfold postReset_setRandomToken, postReset_sendResetPasswordEmail.
  run_monad.
  destruct (findOne_error E); simpl; [by left|].
  destruct (first_match _ l) as [d|] eqn:Hm; simpl; [|by left].
  destruct (first_match_slot _ _ _ Hm) as (i & Hd & _). rewrite Hd in *.
  destruct (save_error E); simpl; [by left|].
  destruct (sendMail_error E false) as [e1|]; simpl.
  - destruct (String.eqb (message e1) self_signed); simpl.
    + destruct (sendMail_error E true); simpl; right; eauto.
    + right; eauto.
  - right; eauto.
Qed.

Lemma postResetToken_rewrites (E : env) (req : request)
    (l : list User.t) (s : option User.t) (n : nat) :
  rewrites_first (by_reset_token (params_token req) (now E))
                 (reset_fields (body_password req))
                 l (users (snd (postResetToken E req (start l s n)))).
Proof.
  unfold postResetToken, assert.
  destruct (8 <=? _); simpl; [|run_monad; by left].
  destruct (String.eqb _ _); simpl; [|run_monad; by left].
  unfold postResetToken_resetPassword, postResetToken_sendResetPasswordEmail.
  run_monad.
  destruct (findOne_error E); simpl; [by left|].
  destruct (first_match _ l) as [d|] eqn:Hm; simpl.
  - destruct (first_match_slot _ _ _ Hm) as (i & Hd & _). rewrite Hd in *.
    destruct (save_error E); simpl; [by left|].
    destruct (logIn_error E); simpl; [right; eauto|].
    destruct (sendMail_error E false) as [e1|]; simpl.
    + destruct (String.eqb (message e1) self_signed); simpl.
      * destruct (sendMail_error E true); simpl; right; eauto.
      * right; eauto.
    + right; eauto.
  - destruct (sendMail_error E false) as [e1|]; simpl.
    + destruct (String.eqb (message e1) self_signed); simpl.
      * destruct (sendMail_error E true); simpl; by left.
      * by left.
    + by left.
Qed.

(** ** POST /signup *)

Lemma postSignup_invalid (V : validator) (E : env) (req : request)
    (l : list User.t) (s : option User.t) (n : nat) (msg : string) (rest : list string) :
  assert (isMobilePhone V (body_phone req)) "Phone is not valid"
  ++ assert (isCreditCard V (body_creditCard req)) "Credit Card Number is not valid"
  ++ assert (isEmail V (body_email req)) "Email is not valid" = msg :: rest ->
  postSignup V E req (start l s n) = (Val tt, only_answered l s n 400 msg).
Proof. intros H. unfold postSignup. rewrite H. reflexivity. Qed.

(** The runs of POST /signup on a valid request, by its credits and by
    what the store and the session answer. *)
Lemma postSignup_valid (V : validator) (E : env) (req : request)
    (l : list User.t) (s : option User.t) (n : nat) :
  isMobilePhone V (body_phone req) = true ->
  isCreditCard V (body_creditCard req) = true ->
  isEmail V (body_email req) = true ->
  let u := signup_user V E n req in
  let n' := (signup_records (now E) n (entries (body_credits req))).1.1 in
  postSignup V E req (start l s n) =
  if has_null (body_credits req) then
    (Exn (null_read_TypeError "generateReport"), mkWorld l s n' false [])
  else
  match findOne_error E with
  | Some e => (Val tt, mkWorld l s n' false [Next e])
  | None =>
      match first_match (by_email (normalizeEmail V (body_email req))) l with
      | Some _ => (Val tt, only_answered l s n' 400 "Email already registered")
      | None =>
          match save_error E with
          | Some e => (Val tt, mkWorld l s n' false [Next e])
          | None =>
              match logIn_error E with
              | Some e =>
                  (Val tt, mkWorld (l ++ [u]) s n' false
                                   [Saved (length l) u; Next e])
              | None =>
                  (Val tt, mkWorld (l ++ [u]) (Some u) n' true
                                   [Saved (length l) u; LogIn u;
                                    Respond 200 "Signup successful"])
              end
          end
      end
  end.
Proof.
  intros Hp Hc He. unfold postSignup, signup_user. rewrite Hp, Hc, He. simpl.
  cbv [mbind M_bind]. rewrite new_records_run.
  destruct (has_null (body_credits req)); simpl; [reflexivity|].
  destruct (signup_records _ _ _) as [[n' cs] rs]. simpl.
  run_monad.
  destruct (findOne_error E); simpl; [reflexivity|].
  destruct (first_match _ l); simpl; [reflexivity|].
  destruct (save_error E); simpl; [reflexivity|].
  destruct (logIn_error E); simpl; reflexivity.
Qed.

(** Every run of POST /signup leaves the collection as it was or appends
    one record whose email no stored record had. *)
Lemma postSignup_appends (V : validator) (E : env) (req : request)
    (l : list User.t) (s : option User.t) (n : nat) :
  let l' := users (snd (postSignup V E req (start l s n))) in
  l' = l \/
  (l' = l ++ [signup_user V E n req] /\
   first_match (by_email (normalizeEmail V (body_email req))) l = None).
Proof.
  destruct (assert (isMobilePhone V (body_phone req)) "Phone is not valid"
            ++ assert (isCreditCard V (body_creditCard req)) "Credit Card Number is not valid"
            ++ assert (isEmail V (body_email req)) "Email is not valid")
    as [|msg rest] eqn:Herr.
  - unfold assert in Herr.
    destruct (isMobilePhone V _) eqn:Hp; [|discriminate].
    destruct (isCreditCard V _) eqn:Hc; [|discriminate].
    destruct (isEmail V _) eqn:He; [|discriminate].
    cbv zeta. rewrite (postSignup_valid V E req l s n Hp Hc He).
    destruct (has_null (body_credits req)); simpl; [by left|].
    destruct (findOne_error E); simpl; [by left|].
    destruct (first_match _ l) eqn:Hm; simpl; [by left|].
    destruct (save_error E); simpl; [by left|].
    destruct (logIn_error E); simpl; right; auto.
  - cbv zeta. rewrite (postSignup_invalid V E req l s n msg rest Herr). by left.
Qed.

(** What [credits.forEach] allocates: identifiers from [n] up, one per
    record, and one report per entry that asks for one, in order. *)
Lemma forEach_credit_allocation (expiry : Z) (n : nat) (l : list Entry.t) :
  exists n' cs rs,
    fold_left (forEach_credit expiry) l (n, [], []) = (n', cs, rs) /\
    n' = n + length cs + length rs /\
    length cs = length l /\
    Report.reportType <$> rs
    = Entry.creditType
        <$> filter (fun e => Is_true (truthy (Entry.generateReport e))) l /\
    Forall (fun r => Report.registration r = "ABC-1234" /\
                     Report.stolen r = false) rs /\
    Forall (fun c => n <= Credit._id c < n') cs /\
    Forall (fun r => n <= Report._id r < n') rs /\
    NoDup (Credit._id <$> cs) /\
    NoDup (Report._id <$> rs) /\
    (forall c r, c ∈ cs -> r ∈ rs -> Credit._id c <> Report._id r).
Proof.
  induction l as [|x l IH] using rev_ind.
  - exists n, [], []. simpl. split; [reflexivity|]. split; [lia|].
    repeat split; try constructor. intros c r Hc. inversion Hc.
  - destruct IH as (n' & cs & rs & Hfold & Hn & Hlen & Hty & Hstub & Hcb & Hrb
                    & Hcn & Hrn & Hdis).
    rewrite fold_left_app, Hfold. simpl. rewrite filter_app.
    assert (Hweak : forall m, n' <= m ->
              Forall (fun c => n <= Credit._id c < m) cs /\
              Forall (fun r => n <= Report._id r < m) rs).
    { intros m Hm. split; eapply Forall_impl; eauto; simpl; intros; lia. }
    assert (Hfresh_c : forall k, n' <= k -> k ∉ Credit._id <$> cs).
    { intros k Hk Hin. apply list_elem_of_fmap in Hin as (c & -> & Hc).
      rewrite Forall_forall in Hcb. specialize (Hcb c Hc). lia. }
    assert (Hfresh_r : forall k, n' <= k -> k ∉ Report._id <$> rs).
    { intros k Hk Hin. apply list_elem_of_fmap in Hin as (r & -> & Hr).
      rewrite Forall_forall in Hrb. specialize (Hrb r Hr). lia. }
    destruct (truthy (Entry.generateReport x)) eqn:Hg.
    + rewrite filter_cons_True by (rewrite Hg; exact I). rewrite filter_nil.
      destruct (Hweak (S (S n'))) as [Hcb' Hrb']; [lia|].
      eexists _, _, _. split; [reflexivity|].
      split; [rewrite !length_app; simpl; lia|].
      split; [rewrite !length_app; simpl; lia|].
      split; [rewrite !fmap_app, Hty; reflexivity|].
      split; [apply Forall_app; split; [exact Hstub | repeat constructor]|].
      split; [apply Forall_app; split; [exact Hcb' | repeat constructor; simpl; lia]|].
      split; [apply Forall_app; split; [exact Hrb' | repeat constructor; simpl; lia]|].
      split.
      { rewrite fmap_app. apply NoDup_app. split; [exact Hcn|].
        split; [|apply NoDup_singleton].
        intros k Hk Hk'. apply list_elem_of_singleton in Hk'. simpl in Hk'. subst k.
        apply (Hfresh_c (S n')); [lia | exact Hk]. }
      split.
      { rewrite fmap_app. apply NoDup_app. split; [exact Hrn|].
        split; [|apply NoDup_singleton].
        intros k Hk Hk'. apply list_elem_of_singleton in Hk'. simpl in Hk'. subst k.
        apply (Hfresh_r n'); [lia | exact Hk]. }
      intros c r Hc Hr.
      apply elem_of_app in Hc as [Hc | Hc]; apply elem_of_app in Hr as [Hr | Hr].
      * by apply Hdis.
      * apply list_elem_of_singleton in Hr as ->. simpl.
        rewrite Forall_forall in Hcb. specialize (Hcb c Hc). lia.
      * apply list_elem_of_singleton in Hc as ->. simpl.
        rewrite Forall_forall in Hrb. specialize (Hrb r Hr). lia.
      * apply list_elem_of_singleton in Hc as ->.
        apply list_elem_of_singleton in Hr as ->. simpl. lia.
    + rewrite filter_cons_False by (rewrite Hg; simpl; tauto).
      rewrite filter_nil, app_nil_r.
      destruct (Hweak (S n')) as [Hcb' Hrb']; [lia|].
      eexists _, _, _. split; [reflexivity|].
      split; [rewrite !length_app; simpl; lia|].
      split; [rewrite !length_app; simpl; lia|].
      split; [exact Hty|].
      split; [exact Hstub|].
      split; [apply Forall_app; split; [exact Hcb' | repeat constructor; simpl; lia]|].
      split; [exact Hrb'|].
      split.
      { rewrite fmap_app. apply NoDup_app. split; [exact Hcn|].
        split; [|apply NoDup_singleton].
        intros k Hk Hk'. apply list_elem_of_singleton in Hk'. simpl in Hk'. subst k.
        apply (Hfresh_c n'); [lia | exact Hk]. }
      split; [exact Hrn|].
      intros c r Hc Hr.
      apply elem_of_app in Hc as [Hc | Hc]; [by apply Hdis|].
      apply list_elem_of_singleton in Hc as ->. simpl.
      rewrite Forall_forall in Hrb. specialize (Hrb r Hr). lia.
Qed.

(** X1. POST /signup checks phone, card number and email in this order
    and answers 400 with the message of the first rule that fails; the
    collection, the session and the identifier counter stay as they were
    and no store operation is made. *)
Theorem signup_invalid_fields_rejected
    (V : validator) (E : env) (req : request) (l : list User.t)
    (s : option User.t) (n : nat) :
  let r := postSignup V E req (start l s n) in
  (isMobilePhone V (body_phone req) = false ->
   r = (Val tt, only_answered l s n 400 "Phone is not valid")) /\
  (isMobilePhone V (body_phone req) = true ->
   isCreditCard V (body_creditCard req) = false ->
   r = (Val tt, only_answered l s n 400 "Credit Card Number is not valid")) /\
  (isMobilePhone V (body_phone req) = true ->
   isCreditCard V (body_creditCard req) = true ->
   isEmail V (body_email req) = false ->
   r = (Val tt, only_answered l s n 400 "Email is not valid")).
Proof.
  intros r. subst r. split; [|split].
  - intros Hp. eapply postSignup_invalid. rewrite Hp. reflexivity.
  - intros Hp Hc. eapply postSignup_invalid. rewrite Hp, Hc. reflexivity.
  - intros Hp Hc He. eapply postSignup_invalid. rewrite Hp, Hc, He. reflexivity.
Qed.

Lemma signup_invalid_fields_rejected_witness :
  isMobilePhone Scenario.picky (body_phone Scenario.mallory) = false /\
  postSignup Scenario.picky (Sample.at_time 5) Scenario.mallory
             (start Sample.collection None 0)
  = (Val tt, only_answered Sample.collection None 0 400 "Phone is not valid").
Proof.
  split; [reflexivity|].
  apply (signup_invalid_fields_rejected
           Scenario.picky (Sample.at_time 5) Scenario.mallory
           Sample.collection None 0).
  reflexivity.
Defined.

(** X2. A POST /signup that passes validation, whose credits hold no
    [null] element, that finds no record with the normalized email and
    meets no store or session failure appends one record (name, phone, card number, normalized email, the credits and
    reports of the request; no password and no reset fields), makes that
    record the identity of the session and then answers 200 "Signup
    successful". *)
Theorem signup_success
    (V : validator) (E : env) (req : request) (l : list User.t)
    (s : option User.t) (n : nat)
    (Hphone : isMobilePhone V (body_phone req) = true)
    (Hcard : isCreditCard V (body_creditCard req) = true)
    (Hemail : isEmail V (body_email req) = true)
    (Hcredits : has_null (body_credits req) = false)
    (Hfind : findOne_error E = None)
    (Hsave : save_error E = None)
    (Hlogin : logIn_error E = None)
    (Hnew : forall u, u ∈ l ->
                      User.email u <> normalizeEmail V (body_email req)) :
  let r := postSignup V E req (start l s n) in
  let u := signup_user V E n req in
  fst r = Val tt /\
  users (snd r) = l ++ [u] /\
  session (snd r) = Some u /\
  trace (snd r) = [Saved (length l) u; LogIn u; Respond 200 "Signup successful"] /\
  User.name u = body_name req /\
  User.phone u = body_phone req /\
  User.creditCard u = body_creditCard req /\
  User.email u = normalizeEmail V (body_email req) /\
  User.password u = None /\
  User.passwordResetToken u = None /\
  User.passwordResetExpires u = None /\
  (next_id (snd r), User.credits u, User.reports u)
  = signup_records (now E) n (entries (body_credits req)).
Proof.
  intros r u. subst r.
  rewrite (postSignup_valid V E req l s n Hphone Hcard Hemail).
  rewrite Hcredits, Hfind, Hsave, Hlogin.
  assert (first_match (by_email (normalizeEmail V (body_email req))) l = None)
    as ->.
  { apply first_match_None. intros v Hv. unfold by_email.
    apply bool_decide_eq_false. by apply Hnew. }
  subst u. unfold signup_user. simpl.
  destruct (signup_records _ _ _) as [[n' cs] rs]. simpl.
  repeat split; reflexivity.
Qed.

Lemma signup_success_witness :
  isMobilePhone Scenario.picky (body_phone Scenario.carol) = true /\
  session (snd (postSignup Scenario.picky (Sample.at_time 5) Scenario.carol
                           (start Sample.collection None 0)))
  = Some (signup_user Scenario.picky (Sample.at_time 5) 0 Scenario.carol).
Proof.
  split; [reflexivity|].
  destruct (signup_success Scenario.picky (Sample.at_time 5) Scenario.carol
              Sample.collection None 0 eq_refl eq_refl eq_refl eq_refl
              eq_refl eq_refl eq_refl) as (_ & _ & H & _).
  - intros u Hu. apply list_elem_of_In in Hu. simpl in Hu.
    destruct Hu as [<- | [<- | []]]; discriminate.
  - exact H.
Defined.

(** The lookup by an email nobody else has finds the appended record. *)
Lemma first_match_appended (e : string) (l : list User.t) (u : User.t) :
  first_match (by_email e) l = None ->
  User.email u = e ->
  first_match (by_email e) (l ++ [u]) = Some (mkDoc (Some (length l)) u).
Proof.
  intros Hnone He. apply first_match_Some. exists (length l), u.
  split; [reflexivity|]. split.
  - rewrite lookup_app_r by lia. by rewrite Nat.sub_diag.
  - split; [unfold by_email; by apply bool_decide_eq_true|].
    intros j v Hj Hlt. rewrite lookup_app_l in Hj by exact Hlt.
    rewrite first_match_None in Hnone. apply Hnone.
    apply list_elem_of_lookup. eauto.
Qed.

(** X3. Signing up and looking up compose, for requests whose credits
    hold no [null] element: after a signup that saved its record the lookup
    by the normalized email returns the appended record, and a second valid
    signup whose email normalizes to the same address, on the resulting
    collection, is answered 400 "Email already registered" and leaves
    the collection as the first signup left it. *)
Theorem signup_then_signup_again
    (V : validator) (E E2 : env) (req req2 : request) (l : list User.t)
    (s s2 : option User.t) (n n2 : nat)
    (Hphone : isMobilePhone V (body_phone req) = true)
    (Hcard : isCreditCard V (body_creditCard req) = true)
    (Hemail : isEmail V (body_email req) = true)
    (Hcredits : has_null (body_credits req) = false)
    (Hfind : findOne_error E = None)
    (Hsave : save_error E = None)
    (Hnew : first_match (by_email (normalizeEmail V (body_email req))) l = None)
    (Hphone2 : isMobilePhone V (body_phone req2) = true)
    (Hcard2 : isCreditCard V (body_creditCard req2) = true)
    (Hemail2 : isEmail V (body_email req2) = true)
    (Hcredits2 : has_null (body_credits req2) = false)
    (Hfind2 : findOne_error E2 = None)
    (Hsame : normalizeEmail V (body_email req2)
             = normalizeEmail V (body_email req)) :
  let l' := users (snd (postSignup V E req (start l s n))) in
  let r2 := postSignup V E2 req2 (start l' s2 n2) in
  l' = l ++ [signup_user V E n req] /\
  first_match (by_email (normalizeEmail V (body_email req))) l'
  = Some (mkDoc (Some (length l)) (signup_user V E n req)) /\
  responses (trace (snd r2)) = [(400, "Email already registered")] /\
  users (snd r2) = l' /\
  session (snd r2) = s2.
Proof.
  intros l' r2.
  assert (Hl' : l' = l ++ [signup_user V E n req]).
  { subst l'. rewrite (postSignup_valid V E req l s n Hphone Hcard Hemail).
    rewrite Hcredits, Hfind, Hnew, Hsave.
    destruct (logIn_error E); reflexivity. }
  assert (Hm : first_match (by_email (normalizeEmail V (body_email req))) l'
               = Some (mkDoc (Some (length l)) (signup_user V E n req))).
  { rewrite Hl'. apply first_match_appended; [exact Hnew|].
    unfold signup_user. destruct (signup_records _ _ _) as [[? ?] ?].
    reflexivity. }
  split; [exact Hl'|]. split; [exact Hm|].
  subst r2. rewrite (postSignup_valid V E2 req2 l' s2 n2 Hphone2 Hcard2 Hemail2).
  rewrite Hcredits2, Hfind2, Hsame, Hm. simpl. auto.
Qed.

Lemma signup_then_signup_again_witness :
  first_match (by_email "carol@example.com") Sample.collection = None /\
  responses
    (trace (snd (postSignup Scenario.picky (Sample.at_time 9) Scenario.carol
       (start (users (snd (postSignup Scenario.picky (Sample.at_time 5)
                             Scenario.carol (start Sample.collection None 0))))
              None 3))))
  = [(400, "Email already registered")].
Proof.
  split; [reflexivity|].
  destruct (signup_then_signup_again
              Scenario.picky (Sample.at_time 5) (Sample.at_time 9)
              Scenario.carol Scenario.carol Sample.collection None None 0 3
              eq_refl eq_refl eq_refl eq_refl eq_refl eq_refl eq_refl
              eq_refl eq_refl eq_refl eq_refl eq_refl eq_refl)
    as (_ & _ & H & _).
  exact H.
Defined.

(** X4. For a request whose credits hold no [null] element, failures
    after validation in POST /signup go to [next] and nowhere else: a
    failing lookup or a failing save ends the request with
    that error handed to [next], no response, and the collection and
    session as they were; a failing [req.logIn] hands the error to [next]
    after the record has been saved, so the account exists but the request
    has no session and no response. *)
Theorem signup_failures_forwarded
    (V : validator) (E : env) (req : request) (l : list User.t)
    (s : option User.t) (n : nat)
    (Hphone : isMobilePhone V (body_phone req) = true)
    (Hcard : isCreditCard V (body_creditCard req) = true)
    (Hemail : isEmail V (body_email req) = true)
    (Hcredits : has_null (body_credits req) = false) :
  let r := postSignup V E req (start l s n) in
  let e0 := normalizeEmail V (body_email req) in
  (forall e, findOne_error E = Some e ->
     trace (snd r) = [Next e] /\ users (snd r) = l /\ session (snd r) = s) /\
  (forall e, findOne_error E = None ->
     first_match (by_email e0) l = None ->
     save_error E = Some e ->
     trace (snd r) = [Next e] /\ users (snd r) = l /\ session (snd r) = s) /\
  (forall e, findOne_error E = None ->
     first_match (by_email e0) l = None ->
     save_error E = None ->
     logIn_error E = Some e ->
     trace (snd r) = [Saved (length l) (signup_user V E n req); Next e] /\
     users (snd r) = l ++ [signup_user V E n req] /\
     session (snd r) = s).
Proof.
  intros r e0. subst r e0.
  rewrite (postSignup_valid V E req l s n Hphone Hcard Hemail), Hcredits.
  split; [|split].
  - intros e ->. auto.
  - intros e -> -> ->. auto.
  - intros e -> -> -> ->. auto.
Qed.

Lemma signup_failures_forwarded_witness :
  findOne_error Scenario.lookup_fails = Some Scenario.ECONNRESET /\
  trace (snd (postSignup Scenario.picky Scenario.lookup_fails Scenario.carol
                         (start Sample.collection None 0)))
  = [Next Scenario.ECONNRESET].
Proof.
  split; [reflexivity|].
  destruct (signup_failures_forwarded
              Scenario.picky Scenario.lookup_fails Scenario.carol
              Sample.collection None 0 eq_refl eq_refl eq_refl eq_refl)
    as [H _].
  destruct (H Scenario.ECONNRESET eq_refl) as [Ht _]. exact Ht.
Defined.

(** X5. POST /signup answers exactly once, with one response or one call
    to [next], and returns normally, whatever the store and the session
    answer, except for a request that passes validation with a [null]
    element in its credits: that one throws the TypeError of reading
    [generateReport] on [null], with no response, no call to [next] and
    nothing written. *)
Theorem signup_answers_exactly_once
    (V : validator) (E : env) (req : request) (l : list User.t)
    (s : option User.t) (n : nat) :
  let r := postSignup V E req (start l s n) in
  let throws :=
    isMobilePhone V (body_phone req) = true /\
    isCreditCard V (body_creditCard req) = true /\
    isEmail V (body_email req) = true /\
    has_null (body_credits req) = true in
  (throws ->
   fst r = Exn (null_read_TypeError "generateReport") /\
   answers (trace (snd r)) = 0 /\
   users (snd r) = l /\ session (snd r) = s) /\
  (~ throws -> fst r = Val tt /\ answers (trace (snd r)) = 1).
Proof.
  intros r throws. subst r throws.
  destruct (assert (isMobilePhone V (body_phone req)) "Phone is not valid"
            ++ assert (isCreditCard V (body_creditCard req)) "Credit Card Number is not valid"
            ++ assert (isEmail V (body_email req)) "Email is not valid")
    as [|msg rest] eqn:Herr.
  - unfold assert in Herr.
    destruct (isMobilePhone V _) eqn:Hp; [|discriminate].
    destruct (isCreditCard V _) eqn:Hc; [|discriminate].
    destruct (isEmail V _) eqn:He; [|discriminate].
    rewrite (postSignup_valid V E req l s n Hp Hc He).
    destruct (has_null (body_credits req)); simpl.
    + split; [auto|]. intros Hno. destruct Hno. auto.
    + split; [intros (_ & _ & _ & [=])|]. intros _.
      destruct (findOne_error E); simpl; [auto|].
      destruct (first_match _ l); simpl; [auto|].
      destruct (save_error E); simpl; [auto|].
      destruct (logIn_error E); simpl; auto.
  - rewrite (postSignup_invalid V E req l s n msg rest Herr). split; [|auto].
    intros (Hp & Hc & He & _). unfold assert in Herr.
    rewrite Hp, Hc, He in Herr. discriminate.
Qed.

Lemma signup_answers_exactly_once_witness :
  has_null (body_credits Scenario.null_credits) = true /\
  fst (postSignup Scenario.picky (Sample.at_time 5) Scenario.null_credits
                  (start Sample.collection None 0))
  = Exn (null_read_TypeError "generateReport").
Proof.
  split; [reflexivity|].
  destruct (signup_answers_exactly_once
              Scenario.picky (Sample.at_time 5) Scenario.null_credits
              Sample.collection None 0) as [H _].
  destruct H as [H _]; [repeat split; reflexivity|]. exact H.
Defined.

Lemma until_null_objects (l : list element) (es : list Entry.t) :
  until_null l = (es, false) -> l = map Obj es.
Proof.
  revert es. induction l as [|[|e] l IH]; intros es H; simpl in H.
  - by injection H as <-.
  - discriminate.
  - destruct (until_null l) as [es' b]. injection H as <- ->.
    simpl. f_equal. by apply IH.
Qed.

(** X6. The credits loop of POST /signup on an array [l]. When [l] holds
    a [null] element the loop throws the TypeError of reading
    [generateReport] on [null]. Otherwise, with [k] elements of which [m]
    have a truthy [generateReport], it builds [k] credits and [m] reports,
    the reports in the order and of the types of their entries, each with
    the placeholder registration "ABC-1234" and [stolen = false]; the
    [k + m] identifiers are the next [k + m] fresh ones and pairwise
    distinct, among credits, among reports and between the two. *)
Theorem signup_records_allocation (E : env) (l : list element) (w : world) :
  (has_null (Arr l) = true ->
   fst (new_records E (Arr l) w) = Exn (null_read_TypeError "generateReport")) /\
  (has_null (Arr l) = false ->
   exists es n' tempCredits tempReports,
     l = map Obj es /\
     new_records E (Arr l) w
     = (Val (Arr tempCredits, Some tempReports),
        mkWorld (users w) (session w) n' (headersSent w) (trace w)) /\
     length tempCredits = length l /\
     length tempReports
     = length (filter (fun e => Is_true (truthy (Entry.generateReport e))) es) /\
     Report.reportType <$> tempReports
     = Entry.creditType
         <$> filter (fun e => Is_true (truthy (Entry.generateReport e))) es /\
     Forall (fun r => Report.registration r = "ABC-1234" /\
                      Report.stolen r = false) tempReports /\
     n' = next_id w + length tempCredits + length tempReports /\
     Forall (fun c => next_id w <= Credit._id c < n') tempCredits /\
     Forall (fun r => next_id w <= Report._id r < n') tempReports /\
     NoDup (Credit._id <$> tempCredits) /\
     NoDup (Report._id <$> tempReports) /\
     (forall c r, c ∈ tempCredits -> r ∈ tempReports ->
                  Credit._id c <> Report._id r)).
Proof.
  rewrite new_records_run. split.
  - intros ->. reflexivity.
  - intros Hnull. rewrite Hnull.
    unfold has_null, entries in *. simpl in *.
    destruct (until_null l) as [es b] eqn:Hes. simpl in Hnull. subst b.
    pose proof (until_null_objects l es Hes) as Hl. simpl.
    destruct (forEach_credit_allocation (now E + two_years)%Z (next_id w) es)
      as (n' & cs & rs & Hfold & Hn & Hlen & Hty & Hstub & Hcb & Hrb & Hcn
          & Hrn & Hdis).
    exists es, n', cs, rs. rewrite Hfold. simpl.
    split; [exact Hl|]. split; [reflexivity|].
    split; [rewrite Hl, length_map; exact Hlen|]. split.
    { rewrite <- (length_fmap Report.reportType), Hty. apply length_fmap. }
    auto 12.
Qed.

Lemma signup_records_allocation_witness :
  has_null (Arr (map Obj Sample.credits)) = false /\
  exists tempCredits tempReports,
    fst (new_records (Sample.at_time 0) (Arr (map Obj Sample.credits))
                     (start Sample.collection None 7))
    = Val (Arr tempCredits, Some tempReports) /\
    length tempCredits = 2 /\ length tempReports = 1.
Proof.
  split; [reflexivity|].
  destruct (signup_records_allocation (Sample.at_time 0)
              (map Obj Sample.credits) (start Sample.collection None 7))
    as [_ H].
  destruct (H eq_refl) as (es & n' & cs & rs & Hl & Heq & Hc & Hr & _).
  exists cs, rs. rewrite Heq. split; [reflexivity|]. split; [exact Hc|].
  rewrite Hr.
  assert (es = Sample.credits) as ->; [|reflexivity].
  clear -Hl. simpl in Hl.
  destruct es as [|e1 [|e2 [|e3 es]]]; try discriminate.
  injection Hl as <- <-. reflexivity.
Defined.

(** ** The password rules *)

Lemma String_eqb_false (a b : string) : a <> b -> String.eqb a b = false.
Proof. intros H. by apply String.eqb_neq. Qed.

(** X7. POST /password/update and POST /password/reset/:token check the
    password first: a password of fewer than 8 characters (characters, not
    bytes) is answered 400 with the length message, even when the
    confirmation differs too; a password of 8 characters or more with a
    different confirmation is answered 400 with the mismatch message; in
    both cases that response is all that happens, whatever the store holds
    or would answer, and nothing is written. *)
Theorem password_rules_checked_first
    (E : env) (req : request) (l : list User.t) (s : option User.t) (n : nat) :
  (char_length (body_password req) < 8 ->
   postUpdatePassword E req (start l s n)
   = (Val tt, only_answered l s n 400
                "Password must be at least 8 characters long") /\
   postResetToken E req (start l s n)
   = (Val tt, only_answered l s n 400
                "Password must be at least 8 characters long.")) /\
  (8 <= char_length (body_password req) ->
   body_confirmPassword req <> body_password req ->
   postUpdatePassword E req (start l s n)
   = (Val tt, only_answered l s n 400 "Passwords do not match") /\
   postResetToken E req (start l s n)
   = (Val tt, only_answered l s n 400 "Passwords must match.")).
Proof.
  unfold postUpdatePassword, postResetToken. split.
  - intros Hshort. apply Nat.leb_gt in Hshort. rewrite Hshort. simpl. auto.
  - intros Hlen Hne. apply Nat.leb_le in Hlen.
    rewrite Hlen, (String_eqb_false _ _ Hne). simpl. auto.
Qed.

Lemma password_rules_checked_first_witness :
  char_length (body_password Scenario.cyrillic) < 8 /\
  postResetToken (Sample.at_time 5) Scenario.cyrillic
                 (start Sample.collection None 0)
  = (Val tt, only_answered Sample.collection None 0 400
               "Password must be at least 8 characters long.").
Proof.
  split; [vm_compute; lia|].
  destruct (password_rules_checked_first
              (Sample.at_time 5) Scenario.cyrillic Sample.collection None 0)
    as [H _].
  apply H. vm_compute. lia.
Defined.

(** ** POST /password/update *)

Lemma postUpdatePassword_valid (E : env) (req : request) (l : list User.t)
    (s : option User.t) (n : nat) :
  8 <= char_length (body_password req) ->
  body_confirmPassword req = body_password req ->
  postUpdatePassword E req (start l s n) =
  match findOne_error E with
  | Some e => (Val tt, mkWorld l s n false [Next e])
  | None =>
      match first_match (by_email (user req)) l with
      | None => (Exn (null_TypeError "password"), start l s n)
      | Some d =>
          let u' := User.set_password (Some (body_password req)) (fields d) in
          match save_error E with
          | Some e => (Val tt, mkWorld l s n false [Next e])
          | None =>
              let '(i, l') := write (mkDoc (slot d) u') l in
              (Val tt, mkWorld l' s n true
                               [Saved i u'; Respond 200 "Password updated"])
          end
      end
  end.
Proof.
  intros Hlen Hc. unfold postUpdatePassword.
  apply Nat.leb_le in Hlen. rewrite Hlen, Hc, String.eqb_refl. simpl.
  run_monad.
  destruct (findOne_error E); simpl; [reflexivity|].
  destruct (first_match _ l) as [d|]; simpl; [|reflexivity].
  destruct (save_error E); simpl; [reflexivity|].
  unfold update. simpl. destruct (write _ l). reflexivity.
Qed.

(** X8. A POST /password/update with a valid body, whose lookup by the
    session identity finds a record and whose save succeeds, rewrites that
    record with the new password and nothing else: its reset token and
    expiry (an outstanding reset link keeps working), every other record
    and the session are as before; the answer is 200 "Password
    updated". *)
Theorem password_update_success
    (E : env) (req : request) (l : list User.t) (s : option User.t)
    (n i : nat) (u : User.t)
    (Hlen : 8 <= char_length (body_password req))
    (Hconfirm : body_confirmPassword req = body_password req)
    (Hfind : findOne_error E = None)
    (Hsave : save_error E = None)
    (Hfound : first_match (by_email (user req)) l = Some (mkDoc (Some i) u)) :
  let u' := User.set_password (Some (body_password req)) u in
  postUpdatePassword E req (start l s n)
  = (Val tt, mkWorld (<[i := u']> l) s n true
                     [Saved i u'; Respond 200 "Password updated"]) /\
  <[i := u']> l !! i = Some u' /\
  (forall j, j <> i -> <[i := u']> l !! j = l !! j) /\
  User.password u' = Some (body_password req) /\
  User.passwordResetToken u' = User.passwordResetToken u /\
  User.passwordResetExpires u' = User.passwordResetExpires u /\
  same_account u u'.
Proof.
  intros u'.
  rewrite (postUpdatePassword_valid E req l s n Hlen Hconfirm).
  rewrite Hfind, Hfound, Hsave. simpl.
  apply first_match_Some in Hfound as (i0 & u0 & [= <- <-] & Hi & _).
  split; [reflexivity|]. split.
  { apply list_lookup_insert_eq. by eapply lookup_lt_Some. }
  split; [intros j Hj; by apply list_lookup_insert_ne|].
  unfold same_account. simpl. auto 10.
Qed.

Lemma password_update_success_witness :
  first_match (by_email (user Sample.req)) Sample.collection
  = Some (mkDoc (Some 1) Sample.alice) /\
  users (snd (postUpdatePassword (Sample.at_time 5) Sample.req
                                 (start Sample.collection None 0)))
  = [Sample.bob; User.set_password (Some "secret123") Sample.alice].
Proof.
  split; [reflexivity|].
  destruct (password_update_success
              (Sample.at_time 5) Sample.req Sample.collection None 0 1
              Sample.alice) as [H _].
  - simpl. lia.
  - reflexivity.
  - reflexivity.
  - reflexivity.
  - reflexivity.
  - rewrite H. reflexivity.
Defined.

(** ** Store failures *)

(** X9. A failing store lookup: GET /password/reset/:token,
    POST /password/update and POST /password/reset/:token (with valid
    bodies) hand the error to [next] and do nothing else; POST
    /password/reset (with a valid email) swallows it: no response, no call
    to [next], nothing at all. *)
Theorem lookup_failure_forwarded_or_swallowed
    (V : validator) (E : env) (req : request) (l : list User.t)
    (s : option User.t) (n : nat) (e : error)
    (Hfail : findOne_error E = Some e) :
  getResetToken E req (start l s n) = (Val tt, mkWorld l s n false [Next e]) /\
  (8 <= char_length (body_password req) ->
   body_confirmPassword req = body_password req ->
   postUpdatePassword E req (start l s n)
   = (Val tt, mkWorld l s n false [Next e]) /\
   postResetToken E req (start l s n)
   = (Val tt, mkWorld l s n false [Next e])) /\
  (isEmail V (body_email req) = true ->
   postReset V E req (start l s n) = (Val tt, start l s n)).
Proof.
  split; [|split].
  - unfold getResetToken. run_monad. rewrite Hfail. reflexivity.
  - intros Hlen Hc. split.
    + rewrite (postUpdatePassword_valid E req l s n Hlen Hc), Hfail. reflexivity.
    + unfold postResetToken. apply Nat.leb_le in Hlen.
      rewrite Hlen, Hc, String.eqb_refl. simpl.
      unfold postResetToken_resetPassword. run_monad. rewrite Hfail. reflexivity.
  - intros He. unfold postReset. rewrite He. simpl.
    unfold postReset_setRandomToken. run_monad. rewrite Hfail. reflexivity.
Qed.

Lemma lookup_failure_forwarded_or_swallowed_witness :
  findOne_error Scenario.lookup_fails = Some Scenario.ECONNRESET /\
  getResetToken Scenario.lookup_fails Sample.req (start Sample.collection None 0)
  = (Val tt, mkWorld Sample.collection None 0 false [Next Scenario.ECONNRESET]) /\
  postReset Sample.checks Scenario.lookup_fails Sample.req
            (start Sample.collection None 0)
  = (Val tt, start Sample.collection None 0).
Proof.
  split; [reflexivity|].
  destruct (lookup_failure_forwarded_or_swallowed
              Sample.checks Scenario.lookup_fails Sample.req Sample.collection
              None 0 Scenario.ECONNRESET eq_refl) as (Hg & _ & Hr).
  split; [exact Hg | exact (Hr eq_refl)].
Defined.

(** X10. A failing save, after the lookup found a record: POST
    /password/update and POST /password/reset/:token hand the error to
    [next], with the collection and the session as they were and neither a
    session nor a mail for the reset; POST /password/reset swallows it and
    ends without response, call to [next], stored token or mail. *)
Theorem save_failure_forwarded_or_swallowed
    (V : validator) (E : env) (req : request) (l : list User.t)
    (s : option User.t) (n : nat) (e : error)
    (Hfind : findOne_error E = None)
    (Hfail : save_error E = Some e) :
  (8 <= char_length (body_password req) ->
   body_confirmPassword req = body_password req ->
   (is_Some (first_match (by_email (user req)) l) ->
    postUpdatePassword E req (start l s n)
    = (Val tt, mkWorld l s n false [Next e])) /\
   (is_Some (first_match (by_reset_token (params_token req) (now E)) l) ->
    postResetToken E req (start l s n)
    = (Val tt, mkWorld l s n false [Next e]))) /\
  (isEmail V (body_email req) = true ->
   is_Some (first_match (by_email (normalizeEmail V (body_email req))) l) ->
   postReset V E req (start l s n) = (Val tt, start l s n)).
Proof.
  split.
  - intros Hlen Hc. split.
    + intros [d Hd].
      rewrite (postUpdatePassword_valid E req l s n Hlen Hc), Hfind, Hd, Hfail.
      reflexivity.
    + intros [d Hd]. unfold postResetToken. apply Nat.leb_le in Hlen.
      rewrite Hlen, Hc, String.eqb_refl. simpl.
      unfold postResetToken_resetPassword. run_monad.
      rewrite Hfind. simpl. rewrite Hd, Hfail. reflexivity.
  - intros He [d Hd]. unfold postReset. rewrite He. simpl.
    unfold postReset_setRandomToken. run_monad.
    rewrite Hfind. simpl. rewrite Hd, Hfail. reflexivity.
Qed.

Lemma save_failure_forwarded_or_swallowed_witness :
  save_error Scenario.save_fails = Some Scenario.ECONNRESET /\
  postUpdatePassword Scenario.save_fails Sample.req
                     (start Sample.collection None 0)
  = (Val tt, mkWorld Sample.collection None 0 false [Next Scenario.ECONNRESET]) /\
  postReset Sample.checks Scenario.save_fails Sample.req
            (start Sample.collection None 0)
  = (Val tt, start Sample.collection None 0).
Proof.
  split; [reflexivity|].
  destruct (save_failure_forwarded_or_swallowed
              Sample.checks Scenario.save_fails Sample.req Sample.collection
              None 0 Scenario.ECONNRESET eq_refl eq_refl) as (Hu & Hr).
  split.
  - destruct Hu as [Hu _]; [simpl; lia | reflexivity |].
    apply Hu. eexists. reflexivity.
  - apply Hr; [reflexivity|]. eexists. reflexivity.
Defined.

(** ** POST /password/reset *)

(** X11. A POST /password/reset with a valid email that no stored record
    has (after normalization) is answered 401 with a message naming the
    normalized email; no token is written, no mail is attempted, and the
    random token that was drawn is dropped. *)
Theorem reset_request_unknown_email
    (V : validator) (E : env) (req : request) (l : list User.t)
    (s : option User.t) (n : nat)
    (Hemail : isEmail V (body_email req) = true)
    (Hfind : findOne_error E = None)
    (Hunknown : forall u, u ∈ l ->
                          User.email u <> normalizeEmail V (body_email req)) :
  postReset V E req (start l s n)
  = (Val tt, only_answered l s n 401
               ("Email " ++ normalizeEmail V (body_email req) ++ " not found")).
Proof.
  unfold postReset. rewrite Hemail. simpl.
  unfold postReset_setRandomToken. run_monad. rewrite Hfind. simpl.
  assert (first_match (by_email (normalizeEmail V (body_email req))) l = None)
    as ->.
  { apply first_match_None. intros u Hu. unfold by_email.
    apply bool_decide_eq_false. by apply Hunknown. }
  reflexivity.
Qed.

Lemma reset_request_unknown_email_witness :
  isEmail Sample.checks (body_email Sample.stranger) = true /\
  postReset Sample.checks (Sample.at_time 5) Sample.stranger
            (start Sample.collection None 0)
  = (Val tt, only_answered Sample.collection None 0 401
               "Email carol@example.com not found").
Proof.
  split; [reflexivity|].
  apply (reset_request_unknown_email
           Sample.checks (Sample.at_time 5) Sample.stranger Sample.collection
           None 0 eq_refl eq_refl).
  intros u Hu. apply list_elem_of_In in Hu. simpl in Hu.
  destruct Hu as [<- | [<- | []]]; discriminate.
Defined.

(** ** The reset token *)

Lemma hex_byte_shape (b : Byte.byte) :
  exists c1 c2,
    hex_byte b = String c1 (String c2 EmptyString) /\
    is_hex c1 = true /\ is_hex c2 = true /\
    unhex_byte c1 c2 = Some b.
Proof. destruct b; eexists _, _; vm_compute; auto. Qed.

Lemma toString_hex_cons (b : Byte.byte) (buf : list Byte.byte) :
  toString_hex (b :: buf) = (hex_byte b ++ toString_hex buf)%string.
Proof.
  unfold toString_hex. simpl. destruct (map hex_byte buf) eqn:Hm.
  - destruct (hex_byte_shape b) as (c1 & c2 & -> & _). reflexivity.
  - reflexivity.
Qed.

Lemma toString_hex_facts (buf : list Byte.byte) :
  String.length (toString_hex buf) = 2 * length buf /\
  forallb is_hex (list_ascii_of_string (toString_hex buf)) = true /\
  fromString_hex (toString_hex buf) = Some buf.
Proof.
  induction buf as [|b buf (IHlen & IHhex & IHback)].
  - repeat split; reflexivity.
  - rewrite toString_hex_cons.
    destruct (hex_byte_shape b) as (c1 & c2 & -> & H1 & H2 & Hb).
    change (String c1 (String c2 EmptyString) ++ toString_hex buf)%string
      with (String c1 (String c2 (toString_hex buf))).
    remember (toString_hex buf) as t eqn:Ht. clear Ht. simpl.
    rewrite IHlen, H1, H2, IHhex, Hb, IHback.
    repeat split; try reflexivity. lia.
Qed.

(** X12. When the random source answers, the reset token is the lowercase
    hex encoding of its bytes: two characters of [0-9a-f] per byte, hence
    32 characters for the 16 bytes requested, and different buffers give
    different tokens. *)
Theorem random_token_is_hex (E : env) (buf : list Byte.byte)
    (Hrandom : randomBytes E = inr buf) :
  exists token,
    createRandomToken E = VStr token /\
    String.length token = 2 * length buf /\
    (length buf = 16 -> String.length token = 32) /\
    forallb is_hex (list_ascii_of_string token) = true /\
    forall E' buf',
      randomBytes E' = inr buf' ->
      createRandomToken E' = VStr token -> buf' = buf.
Proof.
  exists (toString_hex buf). unfold createRandomToken. rewrite Hrandom.
  destruct (toString_hex_facts buf) as (Hlen & Hhex & Hback).
  split; [reflexivity|]. split; [exact Hlen|].
  split; [intros H16; rewrite Hlen, H16; reflexivity|].
  split; [exact Hhex|].
  intros E' buf' Hr'. rewrite Hr'. intros [= Heq].
  destruct (toString_hex_facts buf') as (_ & _ & Hback').
  rewrite Heq, Hback in Hback'. by injection Hback' as ->.
Qed.

Lemma random_token_is_hex_witness :
  randomBytes (Sample.at_time 0) = inr Sample.buf /\
  exists token,
    createRandomToken (Sample.at_time 0) = VStr token /\
    String.length token = 32.
Proof.
  split; [reflexivity|].
  destruct (random_token_is_hex (Sample.at_time 0) Sample.buf eq_refl)
    as (token & Ht & _ & H32 & _).
  exists token. split; [exact Ht | exact (H32 eq_refl)].
Defined.

(** ** From the reset request to the new password *)

(** A record that alone satisfies a query is the one the lookup returns. *)
Lemma first_match_only (q : User.t -> bool) (l : list User.t) (i : nat)
    (u : User.t) :
  l !! i = Some u -> q u = true ->
  (forall j v, l !! j = Some v -> j <> i -> q v = false) ->
  first_match q l = Some (mkDoc (Some i) u).
Proof.
  intros Hi Hq Hothers. apply first_match_Some. exists i, u.
  split; [reflexivity|]. split; [exact Hi|]. split; [exact Hq|].
  intros j v Hj Hlt. apply (Hothers j v Hj). lia.
Qed.

Lemma issue_fields_match (tok : string) (t bound : Z) (u : User.t) :
  by_reset_token tok bound (issue_fields (VStr tok) t u) = true
  <-> (bound < t + one_hour)%Z.
Proof.
  rewrite by_reset_token_true. simpl. split.
  - intros (_ & e & [= <-] & H). exact H.
  - intros H. eauto.
Qed.

(** X13. Requesting and checking compose: after a POST /password/reset
    that stored a token with random bytes [buf], the record carries the hex
    token with an expiry one hour ahead; GET /password/reset/:token with
    that token answers 200 "Valid token" at any time before the expiry;
    from the expiry on, the record no longer matches, and GET answers 400
    when no other record carries the token; whatever token the record had
    before no longer matches it. *)
Theorem issued_token_valid_for_one_hour
    (V : validator) (E E' : env) (req req' : request) (l : list User.t)
    (s s' : option User.t) (n n' i : nat) (u : User.t) (buf : list Byte.byte)
    (Hemail : isEmail V (body_email req) = true)
    (Hrandom : randomBytes E = inr buf)
    (Hfind : findOne_error E = None)
    (Hsave : save_error E = None)
    (Hknown : first_match (by_email (normalizeEmail V (body_email req))) l
              = Some (mkDoc (Some i) u))
    (Htoken : params_token req' = toString_hex buf)
    (Hfind' : findOne_error E' = None) :
  let l' := users (snd (postReset V E req (start l s n))) in
  let u' := issue_fields (VStr (toString_hex buf)) (now E) u in
  let get := responses (trace (snd (getResetToken E' req' (start l' s' n')))) in
  l' = <[i := u']> l /\
  l' !! i = Some u' /\
  ((now E' < now E + one_hour)%Z -> get = [(200, "Valid token")]) /\
  ((now E + one_hour <= now E')%Z ->
   by_reset_token (toString_hex buf) (now E') u' = false /\
   ((forall j v, l !! j = Some v -> j <> i ->
                 User.passwordResetToken v <> Some (VStr (toString_hex buf))) ->
    get = [(400, "Invalid or expired token")])) /\
  (forall old t, old <> toString_hex buf -> by_reset_token old t u' = false).
Proof.
  intros l' u' get.
  destruct (postReset_mail_step V E req l s n i u Hemail Hfind Hsave Hknown)
    as (_ & Hl' & _).
  assert (Htok : createRandomToken E = VStr (toString_hex buf))
    by (unfold createRandomToken; rewrite Hrandom; reflexivity).
  rewrite Htok in Hl'. fold l' u' in Hl'.
  apply first_match_Some in Hknown as (i0 & u0 & [= <- <-] & Hi & _).
  assert (Hi' : l' !! i = Some u').
  { rewrite Hl'. apply list_lookup_insert_eq. by eapply lookup_lt_Some. }
  assert (Hget : get = [match first_match (by_reset_token (toString_hex buf)
                                                          (now E')) l' with
                        | Some _ => (200, "Valid token")
                        | None => (400, "Invalid or expired token")
                        end]).
  { subst get. rewrite getResetToken_run by auto. simpl. rewrite Htoken.
    destruct (first_match _ l'); reflexivity. }
  split; [exact Hl'|]. split; [exact Hi'|]. split; [|split].
  - intros Hlt. rewrite Hget.
    destruct (first_match_elem (by_reset_token (toString_hex buf) (now E'))
                l' u') as [d ->]; [|by apply issue_fields_match|reflexivity].
    apply list_elem_of_lookup. eauto.
  - intros Hge.
    assert (Hu' : by_reset_token (toString_hex buf) (now E') u' = false).
    { destruct (by_reset_token _ _ u') eqn:Hq; [|reflexivity].
      apply issue_fields_match in Hq. lia. }
    split; [exact Hu'|]. intros Hothers. rewrite Hget.
    assert (first_match (by_reset_token (toString_hex buf) (now E')) l' = None)
      as ->; [|reflexivity].
    apply first_match_None. intros v Hv.
    apply list_elem_of_lookup in Hv as [j Hj].
    destruct (decide (j = i)) as [-> | Hne].
    + rewrite Hi' in Hj. by injection Hj as <-.
    + rewrite Hl', list_lookup_insert_ne in Hj by auto.
      destruct (by_reset_token _ _ v) eqn:Hq; [|reflexivity].
      apply by_reset_token_true in Hq as (Ht & _).
      destruct (Hothers j v Hj Hne Ht).
  - intros old t Hold.
    destruct (by_reset_token old t u') eqn:Hq; [|reflexivity].
    apply by_reset_token_true in Hq as ([= Heq] & _). congruence.
Qed.

Lemma issued_token_valid_for_one_hour_witness :
  randomBytes (Sample.at_time 500) = inr Sample.buf /\
  responses
    (trace (snd (getResetToken (Sample.at_time 3600499) Scenario.alice_reset
       (start (users (snd (postReset Sample.checks (Sample.at_time 500)
                             Sample.req (start Sample.collection None 0))))
              None 0))))
  = [(200, "Valid token")].
Proof.
  split; [reflexivity|].
  destruct (issued_token_valid_for_one_hour
              Sample.checks (Sample.at_time 500) (Sample.at_time 3600499)
              Sample.req Scenario.alice_reset Sample.collection None None
              0 0 1 Sample.alice Sample.buf
              eq_refl eq_refl eq_refl eq_refl eq_refl eq_refl eq_refl)
    as (_ & _ & H & _).
  apply H. reflexivity.
Defined.

(** X14. The whole reset: a POST /password/reset that stores a token,
    followed within the hour by a POST /password/reset/:token with that
    token and a valid new password, leaves the account with the new
    password and no reset fields, every other record as it was before the
    two requests, and the token unusable from then on. The other records
    are assumed not to carry the same token. *)
Theorem reset_request_then_completion
    (V : validator) (E E2 : env) (req req2 : request) (l : list User.t)
    (s s2 : option User.t) (n n2 i : nat) (u : User.t) (buf : list Byte.byte)
    (Hemail : isEmail V (body_email req) = true)
    (Hrandom : randomBytes E = inr buf)
    (Hfind : findOne_error E = None)
    (Hsave : save_error E = None)
    (Hknown : first_match (by_email (normalizeEmail V (body_email req))) l
              = Some (mkDoc (Some i) u))
    (Hothers : forall j v, l !! j = Some v -> j <> i ->
                 User.passwordResetToken v <> Some (VStr (toString_hex buf)))
    (Htoken : params_token req2 = toString_hex buf)
    (Hlen : 8 <= char_length (body_password req2))
    (Hconfirm : body_confirmPassword req2 = body_password req2)
    (Hfind2 : findOne_error E2 = None)
    (Hsave2 : save_error E2 = None)
    (Hintime : (now E2 < now E + one_hour)%Z) :
  let l1 := users (snd (postReset V E req (start l s n))) in
  let l2 := users (snd (postResetToken E2 req2 (start l1 s2 n2))) in
  exists u2,
    l2 = <[i := u2]> l /\
    l2 !! i = Some u2 /\
    (forall j, j <> i -> l2 !! j = l !! j) /\
    User.password u2 = Some (body_password req2) /\
    User.passwordResetToken u2 = None /\
    User.passwordResetExpires u2 = None /\
    same_account u u2 /\
    forall later,
      first_match (by_reset_token (toString_hex buf) later) l2 = None.
Proof.
  intros l1 l2.
  destruct (postReset_mail_step V E req l s n i u Hemail Hfind Hsave Hknown)
    as (_ & Hl1 & _).
  assert (Htok : createRandomToken E = VStr (toString_hex buf))
    by (unfold createRandomToken; rewrite Hrandom; reflexivity).
  rewrite Htok in Hl1. fold l1 in Hl1.
  set (u1 := issue_fields (VStr (toString_hex buf)) (now E) u) in *.
  apply first_match_Some in Hknown as (i0 & u0 & [= <- <-] & Hi & _).
  assert (Hlt : i < length l) by (by eapply lookup_lt_Some).
  assert (Hm : first_match (by_reset_token (params_token req2) (now E2)) l1
               = Some (mkDoc (Some i) u1)).
  { rewrite Htoken. apply first_match_only.
    - rewrite Hl1. by apply list_lookup_insert_eq.
    - by apply issue_fields_match.
    - intros j v Hj Hne. rewrite Hl1, list_lookup_insert_ne in Hj by auto.
      destruct (by_reset_token _ _ v) eqn:Hq; [|reflexivity].
      apply by_reset_token_true in Hq as (Ht & _).
      destruct (Hothers j v Hj Hne Ht). }
  destruct (postResetToken_match E2 req2 l1 s2 n2 i u1 Hlen Hconfirm Hfind2
              Hsave2 Hm) as [Hl2 _].
  fold l2 in Hl2. rewrite Hl1, list_insert_insert_eq in Hl2.
  exists (reset_fields (body_password req2) u1).
  split; [exact Hl2|]. split.
  { rewrite Hl2. by apply list_lookup_insert_eq. }
  split; [intros j Hj; rewrite Hl2; by apply list_lookup_insert_ne|].
  split; [reflexivity|]. split; [reflexivity|]. split; [reflexivity|].
  split; [unfold same_account; simpl; auto 10|].
  intros later. rewrite Hl2. clear Hm.
  destruct (first_match (by_reset_token (toString_hex buf) later) _)
    as [d|] eqn:Hd; [|reflexivity].
  apply lookup_after_clear in Hd as (j & v & -> & Hne & Hj & Hq); [|reflexivity].
  apply by_reset_token_true in Hq as (Ht & _).
  destruct (Hothers j v Hj Hne Ht).
Qed.

Lemma reset_request_then_completion_witness :
  (now (Sample.at_time 900) < now (Sample.at_time 500) + one_hour)%Z /\
  users (snd (postResetToken (Sample.at_time 900) Scenario.alice_reset
     (start (users (snd (postReset Sample.checks (Sample.at_time 500)
                           Sample.req (start Sample.collection None 0))))
            None 0)))
  = [Sample.bob;
     User.mk "Alice" "+14155552671" "4111111111111111" "alice@example.com"
             (Some "new-secret") None None Absent None].
Proof.
  split; [reflexivity|].
  destruct (reset_request_then_completion
              Sample.checks (Sample.at_time 500) (Sample.at_time 900)
              Sample.req Scenario.alice_reset Sample.collection None None
              0 0 1 Sample.alice Sample.buf
              eq_refl eq_refl eq_refl eq_refl eq_refl)
    as (u2 & _ & _ & _ & _ & _ & _ & _ & _).
  - intros j v Hj Hne. destruct j as [|[|j]]; simpl in Hj.
    + injection Hj as <-. discriminate.
    + congruence.
    + discriminate.
  - reflexivity.
  - simpl. lia.
  - reflexivity.
  - reflexivity.
  - reflexivity.
  - reflexivity.
  - reflexivity.
Defined.

(** ** POST /password/reset/:token, step by step *)

Lemma postResetToken_found (E : env) (req : request) (l : list User.t)
    (s : option User.t) (n i : nat) (u : User.t) :
  8 <= char_length (body_password req) ->
  body_confirmPassword req = body_password req ->
  findOne_error E = None ->
  first_match (by_reset_token (params_token req) (now E)) l
  = Some (mkDoc (Some i) u) ->
  let r := postResetToken E req (start l s n) in
  let u' := reset_fields (body_password req) u in
  fst r = Val tt /\
  match save_error E with
  | Some e => snd r = mkWorld l s n false [Next e]
  | None =>
      users (snd r) = <[i := u']> l /\
      match logIn_error E with
      | Some e => session (snd r) = s /\ trace (snd r) = [Saved i u'; Next e]
      | None =>
          session (snd r) = Some u' /\
          trace (snd r)
          = Saved i u' :: LogIn u' :: SendMail false (completion_mail u')
              :: completion_mail_outcome E (completion_mail u')
      end
  end.
Proof.
  intros Hlen Hc Hf Hm. unfold postResetToken.
  apply Nat.leb_le in Hlen. rewrite Hlen, Hc, String.eqb_refl. simpl.
  unfold postResetToken_resetPassword, postResetToken_sendResetPasswordEmail.
  run_monad. rewrite Hf, Hm. simpl.
  destruct (save_error E); simpl; [auto|].
  destruct (logIn_error E); simpl; [auto|].
  unfold completion_mail_outcome.
  destruct (sendMail_error E false) as [e1|]; simpl.
  - destruct (String.eqb (message e1) self_signed); simpl.
    + destruct (sendMail_error E true); simpl; auto.
    + auto.
  - auto.
Qed.

(** X15. Once POST /password/reset/:token has saved the new password and
    signed the user in, the answer depends on the mail alone: when the
    first attempt succeeds the handler answers 200 "Password updated"
    right after it; when it fails with the self-signed certificate error
    the relaxed transport is tried once, and the handler answers 200 when
    that succeeds and calls [next] when it fails; when the first attempt
    fails with any other error the handler logs it and sends nothing, so
    the request stays without response although the password has been
    changed. *)
Theorem reset_completion_answer_depends_on_mail
    (E : env) (req : request) (l : list User.t) (s : option User.t)
    (n i : nat) (u : User.t)
    (Hlen : 8 <= char_length (body_password req))
    (Hconfirm : body_confirmPassword req = body_password req)
    (Hfind : findOne_error E = None)
    (Hsave : save_error E = None)
    (Hlogin : logIn_error E = None)
    (Hmatch : first_match (by_reset_token (params_token req) (now E)) l
              = Some (mkDoc (Some i) u)) :
  let r := postResetToken E req (start l s n) in
  let u' := reset_fields (body_password req) u in
  let m := completion_mail u' in
  let done := [Saved i u'; LogIn u'; SendMail false m] in
  users (snd r) = <[i := u']> l /\
  session (snd r) = Some u' /\
  (sendMail_error E false = None ->
   trace (snd r) = done ++ [Respond 200 "Password updated"]) /\
  (forall err,
      sendMail_error E false = Some err ->
      message err = self_signed ->
      (sendMail_error E true = None ->
       trace (snd r)
       = done ++ [Debug downgrade_warning None; SendMail true m;
                  Respond 200 "Password updated"]) /\
      (forall err2,
          sendMail_error E true = Some err2 ->
          trace (snd r)
          = done ++ [Debug downgrade_warning None; SendMail true m;
                     Next err2])) /\
  (forall err,
      sendMail_error E false = Some err ->
      message err <> self_signed ->
      answers (trace (snd r)) = 0 /\
      exists line, trace (snd r) = done ++ [Debug line (Some err)]).
Proof.
  intros r u' m done.
  destruct (postResetToken_found E req l s n i u Hlen Hconfirm Hfind Hmatch)
    as [_ H].
  rewrite Hsave, Hlogin in H. destruct H as (Hu & Hs & Htr).
  fold r u' m in Hu, Hs, Htr.
  split; [exact Hu|]. split; [exact Hs|].
  rewrite Htr. unfold completion_mail_outcome. split; [|split].
  - intros ->. reflexivity.
  - intros err -> ->. simpl. split.
    + intros ->. reflexivity.
    + intros err2 ->. reflexivity.
  - intros err -> Hne. rewrite (String_eqb_false _ _ Hne). simpl.
    split; [reflexivity | eexists; reflexivity].
Qed.

Lemma reset_completion_answer_depends_on_mail_witness :
  sendMail_error (mkEnv 999 (inr Sample.buf) None None None
                        (fun _ => Some Sample.ECONNREFUSED)) false
  = Some Sample.ECONNREFUSED /\
  answers
    (trace (snd (postResetToken
                   (mkEnv 999 (inr Sample.buf) None None None
                          (fun _ => Some Sample.ECONNREFUSED))
                   Sample.req (start Sample.collection None 0))))
  = 0.
Proof.
  split; [reflexivity|].
  destruct (reset_completion_answer_depends_on_mail
              (mkEnv 999 (inr Sample.buf) None None None
                     (fun _ => Some Sample.ECONNREFUSED))
              Sample.req Sample.collection None 0 1 Sample.alice)
    as (_ & _ & _ & _ & H).
  - simpl. lia.
  - reflexivity.
  - reflexivity.
  - reflexivity.
  - reflexivity.
  - reflexivity.
  - destruct (H Sample.ECONNREFUSED eq_refl) as [Ha _]; [discriminate|].
    exact Ha.
Defined.

(** X16. When [req.logIn] fails in POST /password/reset/:token, the new
    password is already stored and the token already cleared: the error
    goes to [next], the request gets no session, no mail is attempted and
    no response is sent. *)
Theorem reset_completion_login_failure
    (E : env) (req : request) (l : list User.t) (s : option User.t)
    (n i : nat) (u : User.t) (e : error)
    (Hlen : 8 <= char_length (body_password req))
    (Hconfirm : body_confirmPassword req = body_password req)
    (Hfind : findOne_error E = None)
    (Hsave : save_error E = None)
    (Hlogin : logIn_error E = Some e)
    (Hmatch : first_match (by_reset_token (params_token req) (now E)) l
              = Some (mkDoc (Some i) u)) :
  let r := postResetToken E req (start l s n) in
  let u' := reset_fields (body_password req) u in
  users (snd r) = <[i := u']> l /\
  User.password u' = Some (body_password req) /\
  User.passwordResetToken u' = None /\
  session (snd r) = s /\
  trace (snd r) = [Saved i u'; Next e].
Proof.
  intros r u'.
  destruct (postResetToken_found E req l s n i u Hlen Hconfirm Hfind Hmatch)
    as [_ H].
  rewrite Hsave, Hlogin in H. destruct H as (Hu & Hs & Htr).
  auto.
Qed.

Lemma reset_completion_login_failure_witness :
  logIn_error (mkEnv 999 (inr Sample.buf) None None
                     (Some Scenario.ECONNRESET) (fun _ => None))
  = Some Scenario.ECONNRESET /\
  session (snd (postResetToken
                  (mkEnv 999 (inr Sample.buf) None None
                         (Some Scenario.ECONNRESET) (fun _ => None))
                  Sample.req (start Sample.collection None 0)))
  = None.
Proof.
  split; [reflexivity|].
  destruct (reset_completion_login_failure
              (mkEnv 999 (inr Sample.buf) None None
                     (Some Scenario.ECONNRESET) (fun _ => None))
              Sample.req Sample.collection None 0 1 Sample.alice
              Scenario.ECONNRESET) as (_ & _ & _ & H & _).
  - simpl. lia.
  - reflexivity.
  - reflexivity.
  - reflexivity.
  - reflexivity.
  - reflexivity.
  - exact H.
Defined.

(** X17. The pre-check and the reset agree: at the same instant, on the
    same collection and with the same token, GET /password/reset/:token
    answers 200 exactly when POST /password/reset/:token (with a valid
    body and a working store) stores the new password, and 400 exactly
    when POST answers 400 and stores nothing. *)
Theorem reset_precheck_agrees_with_completion
    (E : env) (req : request) (l : list User.t) (s : option User.t) (n : nat)
    (Hlen : 8 <= char_length (body_password req))
    (Hconfirm : body_confirmPassword req = body_password req)
    (Hfind : findOne_error E = None)
    (Hsave : save_error E = None) :
  let get := responses (trace (snd (getResetToken E req (start l s n)))) in
  let post := postResetToken E req (start l s n) in
  (get = [(200, "Valid token")] /\
   exists i u, l !! i = Some u /\
               users (snd post) = <[i := reset_fields (body_password req) u]> l /\
               users (snd post) !! i = Some (reset_fields (body_password req) u))
  \/
  (get = [(400, "Invalid or expired token")] /\
   responses (trace (snd post)) = [(400, "Invalid or expired token")] /\
   users (snd post) = l).
Proof.
  intros get post. subst get. rewrite getResetToken_run by auto. simpl.
  destruct (first_match _ l) as [d|] eqn:Hm.
  - left. split; [reflexivity|].
    pose proof Hm as Hm'.
    apply first_match_Some in Hm' as (i & u & -> & Hi & _).
    destruct (postResetToken_found E req l s n i u Hlen Hconfirm Hfind Hm)
      as [_ H].
    rewrite Hsave in H. destruct H as [Hu _]. fold post in Hu.
    exists i, u. split; [exact Hi|]. split; [exact Hu|].
    rewrite Hu. apply list_lookup_insert_eq. by eapply lookup_lt_Some.
  - right. split; [reflexivity|].
    destruct (postResetToken_no_match E req l s n Hlen Hconfirm Hfind Hm)
      as (Hr & Hu & _).
    auto.
Qed.

Lemma reset_precheck_agrees_with_completion_witness :
  8 <= char_length (body_password Sample.req) /\
  (responses (trace (snd (getResetToken (Sample.at_time 1000) Sample.req
                                        (start Sample.collection None 0))))
   = [(400, "Invalid or expired token")] /\
   users (snd (postResetToken (Sample.at_time 1000) Sample.req
                              (start Sample.collection None 0)))
   = Sample.collection).
Proof.
  split; [simpl; lia|].
  destruct (reset_precheck_agrees_with_completion
              (Sample.at_time 1000) Sample.req Sample.collection None 0)
    as [[Hget _] | (Hget & _ & Hu)].
  - simpl. lia.
  - reflexivity.
  - reflexivity.
  - reflexivity.
  - discriminate Hget.
  - split; [exact Hget | exact Hu].
Defined.

(** ** The session handlers *)

Lemma postLogin_valid (V : validator) (E : env) (notEmpty : string -> bool)
    (local : request -> list User.t -> error + option document * string)
    (req : request) (l : list User.t) (s : option User.t) (n : nat) :
  isEmail V (body_email req) = true ->
  notEmpty (body_password req) = true ->
  postLogin V E notEmpty local req (start l s n) =
  match local (sanitize_email V req) l with
  | inl err => (Val tt, mkWorld l s n false [Next err])
  | inr (None, info) => (Val tt, only_answered l s n 401 info)
  | inr (Some d, _) =>
      match logIn_error E with
      | Some err => (Val tt, mkWorld l s n false [Next err])
      | None =>
          (Val tt, mkWorld l (Some (fields d)) n true
                           [LogIn (fields d); Respond 200 "Signed in"])
      end
  end.
Proof.
  intros He Hp. unfold postLogin. rewrite He, Hp. simpl. run_session.
  destruct (local _ l) as [err | [[d|] info]]; simpl; try reflexivity.
  destruct (logIn_error E); reflexivity.
Qed.

(** X18. POST /login checks the email and then the password before the
    local strategy is consulted: an invalid email is answered 400 "Email is
    not valid", a valid email with an empty password 400 "Password cannot
    be blank", whatever the strategy would say. Past validation the
    strategy sees the request with the normalized email: its error goes to
    [next]; no user is answered 401 with the strategy's message and leaves
    the session as it was; a user becomes the identity of the session and
    is answered 200 "Signed in", unless [req.logIn] fails, which goes to
    [next]. *)
Theorem login_outcomes
    (V : validator) (E : env) (notEmpty : string -> bool)
    (local : request -> list User.t -> error + option document * string)
    (req : request) (l : list User.t) (s : option User.t) (n : nat) :
  let r := postLogin V E notEmpty local req (start l s n) in
  (isEmail V (body_email req) = false ->
   r = (Val tt, only_answered l s n 400 "Email is not valid")) /\
  (isEmail V (body_email req) = true ->
   notEmpty (body_password req) = false ->
   r = (Val tt, only_answered l s n 400 "Password cannot be blank")) /\
  (isEmail V (body_email req) = true ->
   notEmpty (body_password req) = true ->
   (forall err, local (sanitize_email V req) l = inl err ->
      r = (Val tt, mkWorld l s n false [Next err])) /\
   (forall info, local (sanitize_email V req) l = inr (None, info) ->
      r = (Val tt, only_answered l s n 401 info)) /\
   (forall d info, local (sanitize_email V req) l = inr (Some d, info) ->
      (logIn_error E = None ->
       r = (Val tt, mkWorld l (Some (fields d)) n true
                            [LogIn (fields d); Respond 200 "Signed in"])) /\
      (forall err, logIn_error E = Some err ->
         r = (Val tt, mkWorld l s n false [Next err])))).
Proof.
  intros r. subst r. split; [|split].
  - intros He. unfold postLogin. rewrite He. reflexivity.
  - intros He Hp. unfold postLogin. rewrite He, Hp. reflexivity.
  - intros He Hp. rewrite (postLogin_valid V E notEmpty local req l s n He Hp).
    split; [|split].
    + intros err ->. reflexivity.
    + intros info ->. reflexivity.
    + intros d info ->. split.
      * intros ->. reflexivity.
      * intros err ->. reflexivity.
Qed.

Lemma login_outcomes_witness :
  isEmail Scenario.picky (body_email Scenario.bob_login) = true /\
  session (snd (postLogin Scenario.picky (Sample.at_time 5) Scenario.notEmpty
                          Scenario.local Scenario.bob_login
                          (start Sample.collection None 0)))
  = Some Sample.bob.
Proof.
  split; [reflexivity|].
  destruct (login_outcomes Scenario.picky (Sample.at_time 5) Scenario.notEmpty
              Scenario.local Scenario.bob_login Sample.collection None 0)
    as (_ & _ & H).
  destruct (H eq_refl eq_refl) as (_ & _ & Hok).
  destruct (Hok (mkDoc (Some 0) Sample.bob) "" eq_refl) as [Hin _].
  rewrite (Hin eq_refl). reflexivity.
Defined.

(** X19. GET /logout always leaves the request without identity and
    without touching the collection; it answers 200 "Signed out" when the
    session store destroyed the session, and logs the error and answers
    500 "Signed out with errors" when it did not. *)
Theorem logout_always_signs_out
    (destroy_error : option error) (l : list User.t) (s : option User.t)
    (n : nat) :
  let r := logout destroy_error (start l s n) in
  fst r = Val tt /\
  session (snd r) = None /\
  users (snd r) = l /\
  (destroy_error = None -> trace (snd r) = [Respond 200 "Signed out"]) /\
  (forall err, destroy_error = Some err ->
     trace (snd r)
     = [Debug "Error : Failed to destroy session during logout" (Some err);
        Respond 500 "Signed out with errors"]).
Proof.
  unfold logout. run_session. destruct destroy_error as [e|]; simpl.
  - repeat split; [discriminate|]. intros err [= <-]. reflexivity.
  - repeat split. discriminate.
Qed.

Lemma logout_always_signs_out_witness :
  responses (trace (snd (logout (Some Scenario.ECONNRESET)
                                (start Sample.collection (Some Sample.bob) 0))))
  = [(500, "Signed out with errors")].
Proof.
  destruct (logout_always_signs_out (Some Scenario.ECONNRESET)
              Sample.collection (Some Sample.bob) 0) as (_ & _ & _ & _ & H).
  rewrite (H Scenario.ECONNRESET eq_refl). reflexivity.
Defined.

(** ** DELETE /delete *)

Lemma without_first_spec (q : User.t -> bool) (l : list User.t) :
  (first_match q l = None /\ without_first q l = l) \/
  (exists i u, first_match q l = Some (mkDoc (Some i) u) /\
               without_first q l = delete i l).
Proof.
  unfold first_match, without_first.
  destruct (list_find _ l) as [[i u]|]; [right; eauto | left; auto].
Qed.

(** X20. DELETE /delete removes the first record whose email is the
    session identity and no other, signs the request out and answers 200
    "Account removed"; it gives the same answer, with the collection
    untouched, when no record has that email. When the store fails, the
    error goes to [next] and the request keeps its identity. *)
Theorem delete_account_outcomes
    (deleteOne_error : option error) (req : request) (l : list User.t)
    (s : option User.t) (n : nat) :
  let r := deleteAccount deleteOne_error req (start l s n) in
  (forall err, deleteOne_error = Some err ->
     r = (Val tt, mkWorld l s n false [Next err])) /\
  (deleteOne_error = None ->
   trace (snd r) = [Respond 200 "Account removed"] /\
   session (snd r) = None /\
   ((forall u, u ∈ l -> User.email u <> user req) -> users (snd r) = l) /\
   (forall i u,
       first_match (by_email (user req)) l = Some (mkDoc (Some i) u) ->
       users (snd r) = delete i l /\
       length (users (snd r)) + 1 = length l /\
       (forall j, j < i -> users (snd r) !! j = l !! j) /\
       (forall j, i <= j -> users (snd r) !! j = l !! S j))).
Proof.
  intros r. subst r. unfold deleteAccount. run_session. split.
  - intros err ->. reflexivity.
  - intros ->. simpl. split; [reflexivity|]. split; [reflexivity|]. split.
    + intros Hnone.
      destruct (without_first_spec (by_email (user req)) l)
        as [[_ ->] | (i & u & Hm & _)]; [reflexivity|].
      apply first_match_Some in Hm as (i0 & u0 & _ & Hi & Hq & _).
      unfold by_email in Hq. apply bool_decide_eq_true in Hq.
      destruct (Hnone u0); [|exact Hq]. apply list_elem_of_lookup. eauto.
    + intros i u Hm.
      destruct (without_first_spec (by_email (user req)) l)
        as [[Hn _] | (i' & u' & Hm' & ->)]; [congruence|].
      rewrite Hm in Hm'. injection Hm' as <- <-.
      apply first_match_Some in Hm as (i0 & u0 & [= <- <-] & Hi & _).
      assert (i < length l) by (by eapply lookup_lt_Some).
      split; [reflexivity|]. split; [rewrite length_delete; [lia|eauto]|].
      split.
      * intros j Hj. by apply list_lookup_delete_lt.
      * intros j Hj. by apply list_lookup_delete_ge.
Qed.

Lemma delete_account_outcomes_witness :
  first_match (by_email (user Scenario.bob_login)) Sample.collection
  = Some (mkDoc (Some 0) Sample.bob) /\
  users (snd (deleteAccount None Scenario.bob_login
                            (start Sample.collection (Some Sample.bob) 0)))
  = [Sample.alice].
Proof.
  split; [reflexivity|].
  destruct (delete_account_outcomes None Scenario.bob_login Sample.collection
              (Some Sample.bob) 0) as [_ H].
  destruct (H eq_refl) as (_ & _ & _ & Hd).
  destruct (Hd 0 Sample.bob eq_refl) as [Hu _].
  rewrite Hu. reflexivity.
Defined.

(** ** What every handler keeps *)

Lemma same_account_refl (l : list User.t) : Forall2 same_account l l.
Proof. induction l; constructor; auto. unfold same_account. auto 10. Qed.

Lemma rewrites_first_accounts q f l l' :
  (forall u, same_account u (f u)) ->
  rewrites_first q f l l' ->
  Forall2 same_account l l' /\ emails l' = emails l.
Proof.
  intros Hf [-> | (i & u & Hm & ->)].
  - split; [apply same_account_refl | reflexivity].
  - apply first_match_Some in Hm as (i0 & u0 & [= <- <-] & Hi & _).
    split.
    + rewrite <- (list_insert_id l i u Hi) at 1.
      apply Forall2_insert; [apply same_account_refl | apply Hf].
    + unfold emails. rewrite list_fmap_insert.
      apply list_insert_id. rewrite list_lookup_fmap, Hi. simpl.
      destruct (Hf u) as (_ & _ & _ & -> & _). reflexivity.
Qed.

Lemma signup_user_fresh (V : validator) (E : env) (n : nat) (req : request) :
  User.email (signup_user V E n req) = normalizeEmail V (body_email req) /\
  User.passwordResetToken (signup_user V E n req) = None /\
  User.passwordResetExpires (signup_user V E n req) = None.
Proof.
  unfold signup_user. destruct (signup_records _ _ _) as [[? ?] ?]. auto.
Qed.

Lemma deleteAccount_users (deleteOne_error : option error) (req : request)
    (l : list User.t) (s : option User.t) (n : nat) :
  let l' := users (snd (deleteAccount deleteOne_error req (start l s n))) in
  l' = l \/ exists i, l' = delete i l.
Proof.
  unfold deleteAccount. run_session.
  destruct deleteOne_error; simpl; [by left|].
  destruct (without_first_spec (by_email (user req)) l)
    as [[_ ->] | (i & u & _ & ->)]; [by left | right; eauto].
Qed.

(** X21. Every handler that writes keeps the reset token and the reset
    expiry paired: if in every stored record the two fields are both
    present or both absent, the same holds after POST /signup, POST
    /password/update, POST /password/reset, POST /password/reset/:token and
    DELETE /delete, whatever the request and whatever fails. *)
Theorem handlers_keep_reset_fields_paired
    (V : validator) (E : env) (deleteOne_error : option error)
    (req : request) (l : list User.t) (s : option User.t) (n : nat)
    (Hpaired : Forall paired l) :
  Forall paired (users (snd (postSignup V E req (start l s n)))) /\
  Forall paired (users (snd (postUpdatePassword E req (start l s n)))) /\
  Forall paired (users (snd (postReset V E req (start l s n)))) /\
  Forall paired (users (snd (postResetToken E req (start l s n)))) /\
  Forall paired (users (snd (deleteAccount deleteOne_error req (start l s n)))).
Proof.
  split; [|split; [|split; [|split]]].
  - destruct (postSignup_appends V E req l s n) as [-> | [-> _]]; [exact Hpaired|].
    apply Forall_app. split; [exact Hpaired|]. constructor; [|constructor].
    destruct (signup_user_fresh V E n req) as (_ & Ht & He).
    unfold paired. rewrite Ht, He. split; intros [? [=]].
  - eapply rewrites_first_Forall;
      [|apply postUpdatePassword_rewrites|exact Hpaired].
    intros u Hu. exact Hu.
  - eapply rewrites_first_Forall; [|apply postReset_rewrites|exact Hpaired].
    intros u _. unfold paired. simpl. split; intros _; eauto.
  - eapply rewrites_first_Forall; [|apply postResetToken_rewrites|exact Hpaired].
    intros u _. unfold paired. simpl. split; intros [? [=]].
  - destruct (deleteAccount_users deleteOne_error req l s n) as [-> | [i ->]];
      [exact Hpaired | by apply Forall_delete].
Qed.

Lemma handlers_keep_reset_fields_paired_witness :
  Forall paired Sample.collection /\
  Forall paired
    (users (snd (postReset Sample.checks (Sample.at_time 5) Sample.req
                           (start Sample.collection None 0)))).
Proof.
  assert (H : Forall paired Sample.collection).
  { repeat constructor; unfold paired; simpl.
    - intros [? [=]].
    - intros [? [=]].
    - eauto.
    - eauto. }
  split; [exact H|].
  apply (handlers_keep_reset_fields_paired
           Sample.checks (Sample.at_time 5) None Sample.req Sample.collection
           None 0 H).
Defined.

(** X22. The three password handlers never add or remove a record,
    rewrite at most one, and never change an account's name, phone, card
    number, email, credits or reports: after POST /password/update, POST
    /password/reset and POST /password/reset/:token the collection has the
    same length, agrees with the old one at every slot but at most one, and
    holds the same accounts slot by slot. *)
Theorem password_handlers_keep_accounts
    (V : validator) (E : env) (req : request) (l : list User.t)
    (s : option User.t) (n : nat) :
  let kept l' :=
    length l' = length l /\
    (exists i, forall j, j <> i -> l' !! j = l !! j) /\
    Forall2 same_account l l' in
  kept (users (snd (postUpdatePassword E req (start l s n)))) /\
  kept (users (snd (postReset V E req (start l s n)))) /\
  kept (users (snd (postResetToken E req (start l s n)))).
Proof.
  assert (Hkept : forall q f l',
            (forall u, same_account u (f u)) ->
            rewrites_first q f l l' ->
            length l' = length l /\
            (exists i, forall j, j <> i -> l' !! j = l !! j) /\
            Forall2 same_account l l').
  { intros q f l' Hf Hr. split; [by eapply rewrites_first_length|]. split.
    - destruct (rewrites_first_frame q f l l' Hr) as [-> | (i & u & _ & _ & _ & H)].
      + exists 0. auto.
      + exists i. exact H.
    - by apply (rewrites_first_accounts q f l l' Hf Hr). }
  intros kept. subst kept. cbv beta. split; [|split].
  - eapply Hkept; [|apply postUpdatePassword_rewrites].
    intros u. unfold same_account. simpl. auto 10.
  - eapply Hkept; [|apply postReset_rewrites].
    intros u. unfold same_account. simpl. auto 10.
  - eapply Hkept; [|apply postResetToken_rewrites].
    intros u. unfold same_account. simpl. auto 10.
Qed.

(** X23. Emails stay unique: if no two stored records share an email, no
    two do after POST /signup, POST /password/update, POST /password/reset,
    POST /password/reset/:token or DELETE /delete, whatever the request and
    whatever fails. *)
Theorem handlers_keep_emails_unique
    (V : validator) (E : env) (deleteOne_error : option error)
    (req : request) (l : list User.t) (s : option User.t) (n : nat)
    (Hunique : NoDup (emails l)) :
  NoDup (emails (users (snd (postSignup V E req (start l s n))))) /\
  NoDup (emails (users (snd (postUpdatePassword E req (start l s n))))) /\
  NoDup (emails (users (snd (postReset V E req (start l s n))))) /\
  NoDup (emails (users (snd (postResetToken E req (start l s n))))) /\
  NoDup (emails (users (snd (deleteAccount deleteOne_error req (start l s n))))).
Proof.
  split; [|split; [|split; [|split]]].
  - destruct (postSignup_appends V E req l s n) as [-> | [-> Hnone]];
      [exact Hunique|].
    unfold emails. rewrite fmap_app. apply NoDup_app.
    split; [exact Hunique|]. split; [|apply NoDup_singleton].
    intros e He He'. apply list_elem_of_singleton in He'. simpl in He'.
    destruct (signup_user_fresh V E n req) as (Hmail & _).
    rewrite Hmail in He'. subst e.
    apply list_elem_of_fmap in He as (u & Hu & Hin).
    rewrite first_match_None in Hnone. specialize (Hnone u Hin).
    unfold by_email in Hnone. apply bool_decide_eq_false in Hnone. congruence.
  - pose proof (postUpdatePassword_rewrites E req l s n) as Hr.
    apply rewrites_first_accounts in Hr as [_ ->]; [exact Hunique|].
    intros u. unfold same_account. simpl. auto 10.
  - pose proof (postReset_rewrites V E req l s n) as Hr.
    apply rewrites_first_accounts in Hr as [_ ->]; [exact Hunique|].
    intros u. unfold same_account. simpl. auto 10.
  - pose proof (postResetToken_rewrites E req l s n) as Hr.
    apply rewrites_first_accounts in Hr as [_ ->]; [exact Hunique|].
    intros u. unfold same_account. simpl. auto 10.
  - destruct (deleteAccount_users deleteOne_error req l s n) as [-> | [i ->]];
      [exact Hunique|].
    unfold emails. rewrite list_fmap_delete.
    eapply sublist_NoDup; [exact Hunique | apply sublist_delete].
Qed.

Lemma handlers_keep_emails_unique_witness :
  NoDup (emails Sample.collection) /\
  NoDup (emails (users (snd (postSignup Scenario.picky (Sample.at_time 5)
                               Scenario.carol (start Sample.collection None 0))))).
Proof.
  assert (H : NoDup (emails Sample.collection)).
  { apply NoDup_cons. split.
    - intros Hin. apply list_elem_of_singleton in Hin. discriminate.
    - apply NoDup_singleton. }
  split; [exact H|].
  apply (handlers_keep_emails_unique
           Scenario.picky (Sample.at_time 5) None Scenario.carol
           Sample.collection None 0 H).
Defined.

(** ** Handlers in sequence *)

(** X24. Signing up and removing the account compose to nothing: after a
    valid POST /signup for a new email (which appends the record, unless a
    [null] credit element makes it throw and write nothing), a DELETE
    /delete whose session identity is that normalized email removes
    exactly that record, so the collection is the one before the signup,
    and the request is signed out. *)
Theorem signup_then_delete_restores
    (V : validator) (E : env) (req req2 : request) (l : list User.t)
    (s s2 : option User.t) (n n2 : nat)
    (Hphone : isMobilePhone V (body_phone req) = true)
    (Hcard : isCreditCard V (body_creditCard req) = true)
    (Hemail : isEmail V (body_email req) = true)
    (Hfind : findOne_error E = None)
    (Hsave : save_error E = None)
    (Hnew : first_match (by_email (normalizeEmail V (body_email req))) l = None)
    (Hidentity : user req2 = normalizeEmail V (body_email req)) :
  let l1 := users (snd (postSignup V E req (start l s n))) in
  let r2 := deleteAccount None req2 (start l1 s2 n2) in
  (has_null (body_credits req) = false -> length l1 = S (length l)) /\
  users (snd r2) = l /\
  session (snd r2) = None /\
  trace (snd r2) = [Respond 200 "Account removed"].
Proof.
  intros l1 r2.
  assert (Hl1 : if has_null (body_credits req) then l1 = l
                else l1 = l ++ [signup_user V E n req]).
  { subst l1. rewrite (postSignup_valid V E req l s n Hphone Hcard Hemail).
    destruct (has_null (body_credits req)); [reflexivity|].
    rewrite Hfind, Hnew, Hsave. destruct (logIn_error E); reflexivity. }
  split.
  { intros Hc. rewrite Hc in Hl1. rewrite Hl1, length_app; simpl; lia. }
  subst r2. unfold deleteAccount. run_session.
  split; [|split; reflexivity].
  destruct (has_null (body_credits req)).
  - rewrite Hl1.
    destruct (without_first_spec (by_email (user req2)) l)
      as [[_ ->] | (i & u & Hm & _)]; [reflexivity|].
    rewrite Hidentity, Hnew in Hm. discriminate.
  - destruct (without_first_spec (by_email (user req2)) l1)
      as [[Hn _] | (i & u & Hm & ->)].
    + rewrite Hidentity, Hl1 in Hn.
      rewrite first_match_appended in Hn; [discriminate | exact Hnew|].
      apply (signup_user_fresh V E n req).
    + rewrite Hidentity, Hl1 in Hm.
      rewrite first_match_appended in Hm;
        [|exact Hnew | apply (signup_user_fresh V E n req)].
      injection Hm as <- <-. rewrite Hl1.
      rewrite (delete_middle l [] (signup_user V E n req)). apply app_nil_r.
Qed.

Lemma signup_then_delete_restores_witness :
  first_match (by_email "carol@example.com") Sample.collection = None /\
  users (snd (deleteAccount None Scenario.carol
     (start (users (snd (postSignup Scenario.picky (Sample.at_time 5)
                           Scenario.carol (start Sample.collection None 0))))
            None 0)))
  = Sample.collection.
Proof.
  split; [reflexivity|].
  destruct (signup_then_delete_restores
              Scenario.picky (Sample.at_time 5) Scenario.carol Scenario.carol
              Sample.collection None None 0 0
              eq_refl eq_refl eq_refl eq_refl eq_refl eq_refl eq_refl)
    as (_ & H & _).
  exact H.
Defined.

Lemma NoDup_lookup_emails (l : list User.t) (i j : nat) (u v : User.t) :
  NoDup (emails l) -> l !! i = Some u -> l !! j = Some v ->
  User.email u = User.email v -> i = j.
Proof.
  intros Hnd Hi Hj He. apply (NoDup_lookup (emails l) i j (User.email u)).
  - exact Hnd.
  - unfold emails. rewrite list_lookup_fmap, Hi. reflexivity.
  - unfold emails. rewrite list_lookup_fmap, Hj, He. reflexivity.
Qed.

(** X25. With unique emails, a removed account is gone for the handlers
    that look it up: after a DELETE /delete that the store carried out, no
    stored record has the session identity as email, so a POST
    /password/reset for that email is answered 401 and a POST
    /password/update under that identity throws on the missing record. *)
Theorem deleted_account_is_gone
    (V : validator) (E : env) (req req2 : request) (l : list User.t)
    (s s2 : option User.t) (n n2 : nat)
    (Hunique : NoDup (emails l))
    (Hfind : findOne_error E = None)
    (Hemail : isEmail V (body_email req2) = true)
    (Hsame : normalizeEmail V (body_email req2) = user req)
    (Hidentity : user req2 = user req)
    (Hlen : 8 <= char_length (body_password req2))
    (Hconfirm : body_confirmPassword req2 = body_password req2) :
  let l1 := users (snd (deleteAccount None req (start l s n))) in
  (forall u, u ∈ l1 -> User.email u <> user req) /\
  postReset V E req2 (start l1 s2 n2)
  = (Val tt, only_answered l1 s2 n2 401
               ("Email " ++ user req ++ " not found")) /\
  postUpdatePassword E req2 (start l1 s2 n2)
  = (Exn (null_TypeError "password"), start l1 s2 n2).
Proof.
  intros l1.
  assert (Hgone : forall u, u ∈ l1 -> User.email u <> user req).
  { subst l1. unfold deleteAccount. run_session.
    destruct (without_first_spec (by_email (user req)) l)
      as [[Hn ->] | (i & u & Hm & ->)].
    - intros v Hv. rewrite first_match_None in Hn. specialize (Hn v Hv).
      unfold by_email in Hn. by apply bool_decide_eq_false in Hn.
    - apply first_match_Some in Hm as (i0 & u0 & [= <- <-] & Hi & Hq & _).
      unfold by_email in Hq. apply bool_decide_eq_true in Hq.
      intros v Hv Hve. apply list_elem_of_lookup in Hv as [j Hj].
      destruct (decide (j < i)) as [Hlt | Hge].
      + rewrite list_lookup_delete_lt in Hj by exact Hlt.
        assert (j = i); [|lia].
        apply (NoDup_lookup_emails l j i v u Hunique Hj Hi). congruence.
      + rewrite list_lookup_delete_ge in Hj by lia.
        assert (S j = i); [|lia].
        apply (NoDup_lookup_emails l (S j) i v u Hunique Hj Hi). congruence. }
  assert (Hnone : first_match (by_email (user req)) l1 = None).
  { apply first_match_None. intros u Hu. unfold by_email.
    apply bool_decide_eq_false. by apply Hgone. }
  split; [exact Hgone|]. split.
  - unfold postReset. rewrite Hemail. simpl.
    unfold postReset_setRandomToken. run_monad. rewrite Hfind. simpl.
    rewrite Hsame, Hnone. reflexivity.
  - rewrite (postUpdatePassword_valid E req2 l1 s2 n2 Hlen Hconfirm).
    rewrite Hfind, Hidentity, Hnone. reflexivity.
Qed.

Lemma deleted_account_is_gone_witness :
  NoDup (emails Sample.collection) /\
  postUpdatePassword (Sample.at_time 5) Sample.req
    (start (users (snd (deleteAccount None Sample.req
                          (start Sample.collection None 0)))) None 0)
  = (Exn (null_TypeError "password"), start [Sample.bob] None 0).
Proof.
  assert (H : NoDup (emails Sample.collection)).
  { apply NoDup_cons. split.
    - intros Hin. apply list_elem_of_singleton in Hin. discriminate.
    - apply NoDup_singleton. }
  split; [exact H|].
  destruct (deleted_account_is_gone
              Sample.checks (Sample.at_time 5) Sample.req Sample.req
              Sample.collection None None 0 0 H eq_refl eq_refl eq_refl eq_refl)
    as (_ & _ & Hu).
  - simpl. lia.
  - reflexivity.
  - exact Hu.
Defined.

(** X26. The session probes follow the session handlers: in a request on
    the session a successful POST /login left, GET /signup, GET /login and
    GET /password/reset answer 200 "Signed in"; on the session GET /logout
    left they answer 200 "Signed out"; GET /password/update answers 200
    "Signed in" in both. None of the four changes the collection or the
    session. *)
Theorem session_probes_follow_login_and_logout
    (V : validator) (E : env) (notEmpty : string -> bool)
    (local : request -> list User.t -> error + option document * string)
    (destroy_error : option error)
    (req : request) (l : list User.t) (s : option User.t) (n n' : nat)
    (d : document) (info : string)
    (Hemail : isEmail V (body_email req) = true)
    (Hpassword : notEmpty (body_password req) = true)
    (Hverified : local (sanitize_email V req) l = inr (Some d, info))
    (Hlogin : logIn_error E = None) :
  let w1 := snd (postLogin V E notEmpty local req (start l s n)) in
  let w2 := snd (logout destroy_error (start (users w1) (session w1) n')) in
  let signed_in := (Val tt, only_answered l (Some (fields d)) n' 200 "Signed in") in
  let signed_out := (Val tt, only_answered l None n' 200 "Signed out") in
  getSignup (start (users w1) (session w1) n') = signed_in /\
  getLogin (start (users w1) (session w1) n') = signed_in /\
  getReset (start (users w1) (session w1) n') = signed_in /\
  getUpdatePassword (start (users w1) (session w1) n') = signed_in /\
  getSignup (start (users w2) (session w2) n') = signed_out /\
  getLogin (start (users w2) (session w2) n') = signed_out /\
  getReset (start (users w2) (session w2) n') = signed_out /\
  getUpdatePassword (start (users w2) (session w2) n')
  = (Val tt, only_answered l None n' 200 "Signed in").
Proof.
  intros w1 w2.
  assert (Hw1 : users w1 = l /\ session w1 = Some (fields d)).
  { subst w1.
    rewrite (postLogin_valid V E notEmpty local req l s n Hemail Hpassword).
    rewrite Hverified, Hlogin. auto. }
  destruct Hw1 as [Hu1 Hs1].
  assert (Hw2 : users w2 = l /\ session w2 = None).
  { subst w2. rewrite Hu1, Hs1. unfold logout. run_session.
    destruct destroy_error; auto. }
  destruct Hw2 as [Hu2 Hs2].
  rewrite Hu1, Hs1, Hu2, Hs2. repeat split; reflexivity.
Qed.

Lemma session_probes_follow_login_and_logout_witness :
  Scenario.local (sanitize_email Scenario.picky Scenario.bob_login)
                 Sample.collection
  = inr (Some (mkDoc (Some 0) Sample.bob), "") /\
  getLogin
    (start Sample.collection
       (session (snd (postLogin Scenario.picky (Sample.at_time 5)
                        Scenario.notEmpty Scenario.local Scenario.bob_login
                        (start Sample.collection None 0)))) 0)
  = (Val tt, only_answered Sample.collection (Some Sample.bob) 0 200 "Signed in").
Proof.
  split; [reflexivity|].
  destruct (session_probes_follow_login_and_logout
              Scenario.picky (Sample.at_time 5) Scenario.notEmpty
              Scenario.local None Scenario.bob_login Sample.collection None
              0 0 (mkDoc (Some 0) Sample.bob) ""
              eq_refl eq_refl eq_refl eq_refl) as (_ & H & _).
  exact H.
Defined.
